(** * Session-lifecycle policy of the game improver

    A shallow embedding of [improveGame] (the game improver module) and
    of the metadata record that [generateGame] saves when it scaffolds
    a game,
    followed by the properties of the session policy: the resume/fresh
    decision, the bookkeeping before and after the agent invocation, and
    what reaches [metadata.json].

    Modelling conventions.
    - An optional field [f?: T] is an [option T]; [undefined] is [None].
      [JSON.stringify] drops undefined fields and [JSON.parse] gives them
      back as undefined, so the file content is the record itself.
    - Counters and token counts are integers ([Z]).  Costs are rationals
      ([Q]): the code only copies and compares them, and every finite
      double is a rational.
    - [Date.now()] is an integer number of milliseconds.  Parsing and
      printing of ISO timestamps are parameters of the development
      ([getTime], [toISOString]); an unparsable string gives [NaN].
      The elapsed minutes are computed in [Q]; as the two dates are
      integers and rounding is monotone, the comparison with 5 comes
      out as it does on doubles.
    - [console.log] output is dropped, except the reason that is printed
      for a fresh start.  Re-applying the read-only bits on [shared/]
      touches no variable of the function and is left out. *)

From Stdlib Require Import ZArith QArith Ascii String List Bool Lia.
From Stdlib Require Import DecimalString.
Import ListNotations.

Local Open Scope string_scope.
Local Open Scope Z_scope.

(** ** JavaScript values *)

Module JS.

(** Truthiness of a [string | undefined]: the empty string is falsy. *)
Definition truthy (s : option string) : bool :=
  match s with
  | Some s => negb (s =? EmptyString)%string
  | None => false
  end.

(** Truthiness of a [number | undefined] holding an integer. *)
Definition truthyZ (x : option Z) : bool :=
  match x with
  | Some z => negb (z =? 0)
  | None => false
  end.

(** [x || 0] on a required integer field. *)
Definition orZero (x : Z) : Z := if x =? 0 then 0 else x.

(** [x || 0] on an optional integer field. *)
Definition or0 (x : option Z) : Z :=
  match x with
  | Some z => orZero z
  | None => 0
  end.

(** [x || 0] on an optional cost. *)
Definition or0Q (x : option Q) : Q :=
  match x with
  | Some q => if Qeq_bool q 0 then 0%Q else q
  | None => 0%Q
  end.

(** [a > b] on rationals. *)
Definition Qgtb (a b : Q) : bool := negb (Qle_bool a b).

(** A number that may be [NaN] (the result of date arithmetic). *)
Inductive number :=
| NaN
| Num (q : Q).

(** [x > y]: false when [x] is [NaN]. *)
Definition gt (x : number) (y : Q) : bool :=
  match x with
  | NaN => false
  | Num q => Qgtb q y
  end.

End JS.

(** ** Data *)

Record TokenUsage := mkTokenUsage {
  input_tokens : Z;
  output_tokens : Z;
  cache_creation_input_tokens : option Z;
  cache_read_input_tokens : option Z
}.

Record GameMetadata := mkGameMetadata {
  id : string;
  name : string;
  description : string;
  icon : string;
  createdAt : string;
  claudeSessionId : option string;
  hasActiveSession : bool;
  improvementCount : Z;
  lastImprovementAt : option string;
  contextSize : option Z;
  lastImprovementCost : option Q;
  sessionImprovementCount : option Z
}.

(** Field assignments [metadata.f = v]. *)

Definition set_claudeSessionId (v : option string) (m : GameMetadata) :=
  mkGameMetadata (id m) (name m) (description m) (icon m) (createdAt m)
    v (hasActiveSession m) (improvementCount m) (lastImprovementAt m)
    (contextSize m) (lastImprovementCost m) (sessionImprovementCount m).

Definition set_hasActiveSession (v : bool) (m : GameMetadata) :=
  mkGameMetadata (id m) (name m) (description m) (icon m) (createdAt m)
    (claudeSessionId m) v (improvementCount m) (lastImprovementAt m)
    (contextSize m) (lastImprovementCost m) (sessionImprovementCount m).

Definition set_improvementCount (v : Z) (m : GameMetadata) :=
  mkGameMetadata (id m) (name m) (description m) (icon m) (createdAt m)
    (claudeSessionId m) (hasActiveSession m) v (lastImprovementAt m)
    (contextSize m) (lastImprovementCost m) (sessionImprovementCount m).

Definition set_lastImprovementAt (v : option string) (m : GameMetadata) :=
  mkGameMetadata (id m) (name m) (description m) (icon m) (createdAt m)
    (claudeSessionId m) (hasActiveSession m) (improvementCount m) v
    (contextSize m) (lastImprovementCost m) (sessionImprovementCount m).

Definition set_contextSize (v : option Z) (m : GameMetadata) :=
  mkGameMetadata (id m) (name m) (description m) (icon m) (createdAt m)
    (claudeSessionId m) (hasActiveSession m) (improvementCount m)
    (lastImprovementAt m) v (lastImprovementCost m)
    (sessionImprovementCount m).

Definition set_lastImprovementCost (v : option Q) (m : GameMetadata) :=
  mkGameMetadata (id m) (name m) (description m) (icon m) (createdAt m)
    (claudeSessionId m) (hasActiveSession m) (improvementCount m)
    (lastImprovementAt m) (contextSize m) v (sessionImprovementCount m).

Definition set_sessionImprovementCount (v : option Z) (m : GameMetadata) :=
  mkGameMetadata (id m) (name m) (description m) (icon m) (createdAt m)
    (claudeSessionId m) (hasActiveSession m) (improvementCount m)
    (lastImprovementAt m) (contextSize m) (lastImprovementCost m) v.

(** The events of the agent's stream ([SDKMessage]).  Only what
    [improveGame] inspects is kept: the kind, the usage block, the cost
    of a result and the session id.  [usage = None] on a result stands
    for a message without a [usage] key. *)
Inductive SDKMessage :=
| MsgAssistant (usage : option TokenUsage) (session_id : option string)
| MsgResult (subtype : string) (total_cost_usd : Q)
            (usage : option TokenUsage) (session_id : option string)
| MsgSystem (subtype : string) (session_id : option string)
| MsgUser (session_id : option string).

Definition session_id_of (msg : SDKMessage) : option string :=
  match msg with
  | MsgAssistant _ s => s
  | MsgResult _ _ _ s => s
  | MsgSystem _ s => s
  | MsgUser s => s
  end.

(** A value thrown by the stream or by [fs.writeFile]. *)
Inductive Thrown :=
| JsError (msg : string)
| NonError.

(** Outcome of [npx tsc ... --noEmit --strict]. *)
Inductive TscOutcome :=
| TscExit0 (stdout stderr : string)
| TscFailed (errorOutput : string).

Record ImproveResult := mkResult {
  success : bool;
  message : string
}.

(** Why a fresh session is started, as printed after "Reason:". *)
Inductive Reason :=
| FirstImprovement
| CacheExpired (minutes : JS.number)
| SessionTooLong (improvements : Z)
| ContextTooLarge (tokens : Z)
| LastCostTooHigh (cost : Q).

Definition reasonText (r : Reason) : string :=
  match r with
  | FirstImprovement => "First improvement or no previous timestamp"
  | CacheExpired _ => "minutes since last improvement (cache expired)"
  | SessionTooLong _ => "improvements in session (context too large)"
  | ContextTooLarge _ => "tokens exceeds 30k threshold"
  | LastCostTooHigh _ => "exceeds $0.20"
  end.

(** The variables of [improveGame] that live across the stream. *)
Record Locals := mkLocals {
  metadata : GameMetadata;
  sessionId : option string;
  totalCostUSD : Q;
  totalTokenUsage : TokenUsage;
  stepCount : Z
}.

Definition set_metadata (m : GameMetadata) (l : Locals) : Locals :=
  mkLocals m (sessionId l) (totalCostUSD l) (totalTokenUsage l) (stepCount l).

(** The game directory as [improveGame] finds it: missing, with a
    [metadata.json] that cannot be read or parsed, or with a record. *)
Inductive GameDir :=
| NoSuchGame
| BadMetadata
| Game (m : GameMetadata).

(** Outcome of [fs.writeFile(metadataPath, ...)].  A failed write is not
    atomic: [clobbered] says whether it left the file unreadable. *)
Inductive WriteOutcome :=
| Written
| WriteFailed (e : Thrown) (clobbered : bool).

(** Everything the outside world contributes to one call. *)
Record World := mkWorld {
  date_now : Z;                      (* Date.now() at the decision *)
  query_events : list SDKMessage;    (* what the stream yields *)
  query_throws : option Thrown;      (* ... and whether it then throws *)
  date_done : Z;                     (* new Date() at reconciliation *)
  writeFile : WriteOutcome;
  tsc : TscOutcome
}.

(** ** The decision *)

Section Policy.

(** [new Date(s).getTime()]: [None] is NaN (invalid date). *)
Variable getTime : string -> option Z.
(** [new Date(t).toISOString()]. *)
Variable toISOString : Z -> string.

Definition timeSinceLastImprovement (m : GameMetadata) (now : Z)
  : option JS.number :=
  if JS.truthy (lastImprovementAt m) then
    match lastImprovementAt m with
    | Some s =>
        match getTime s with
        | Some t => Some (JS.Num (inject_Z (now - t) / 1000 / 60)%Q)
        | None => Some JS.NaN
        end
    | None => None
    end
  else None.

Definition shouldReset (m : GameMetadata) (now : Z) : bool :=
  let contextSize := JS.or0 (contextSize m) in
  let sessionImprovements := JS.or0 (sessionImprovementCount m) in
  let lastCost := JS.or0Q (lastImprovementCost m) in
  negb (JS.truthy (claudeSessionId m))
  || match timeSinceLastImprovement m now with
     | None => true
     | Some t => JS.gt t 5
     end
  || (5 <=? sessionImprovements)
  || (30000 <? contextSize)
  || JS.Qgtb lastCost 0.20.

(** The [if]/[else if] chain under "Starting fresh session". *)
Definition resetReason (m : GameMetadata) (now : Z) : option Reason :=
  let contextSize := JS.or0 (contextSize m) in
  let sessionImprovements := JS.or0 (sessionImprovementCount m) in
  let lastCost := JS.or0Q (lastImprovementCost m) in
  match timeSinceLastImprovement m now with
  | None => Some FirstImprovement
  | Some t =>
      if JS.gt t 5 then Some (CacheExpired t)
      else if 5 <=? sessionImprovements
        then Some (SessionTooLong sessionImprovements)
      else if 30000 <? contextSize then Some (ContextTooLarge contextSize)
      else if JS.Qgtb lastCost 0.20 then Some (LastCostTooHigh lastCost)
      else None
  end.

(** What is logged as the reason: nothing on the resume path. *)
Definition reportedReason (m : GameMetadata) (now : Z) : option Reason :=
  if shouldReset m now then resetReason m now else None.

(** "Clear session data for fresh start". *)
Definition clearSession (m : GameMetadata) : GameMetadata :=
  set_sessionImprovementCount (Some 0) (set_claudeSessionId None m).

Definition afterDecision (m : GameMetadata) (now : Z) : GameMetadata :=
  if shouldReset m now then clearSession m else m.

(** The [resume] option handed to [query]: present only when the
    decision says so and the record still holds a session id. *)
Definition resumeOption (m0 : GameMetadata) (now : Z) : option string :=
  let m := afterDecision m0 now in
  if negb (shouldReset m0 now) && JS.truthy (claudeSessionId m)
  then claudeSessionId m
  else None.

(** ** The stream loop *)

(** An assistant message with a usage block. *)
Definition trackUsage (u : TokenUsage) (l : Locals) : Locals :=
  let m :=
    if JS.truthyZ (cache_read_input_tokens u)
    then set_contextSize (cache_read_input_tokens u) (metadata l)
    else metadata l in
  let t := totalTokenUsage l in
  let total :=
    mkTokenUsage
      (input_tokens t + JS.orZero (input_tokens u))
      (output_tokens t + JS.orZero (output_tokens u))
      (if JS.truthyZ (cache_creation_input_tokens u)
       then option_map (fun a => a + JS.or0 (cache_creation_input_tokens u))
              (cache_creation_input_tokens t)
       else cache_creation_input_tokens t)
      (if JS.truthyZ (cache_read_input_tokens u)
       then option_map (fun a => a + JS.or0 (cache_read_input_tokens u))
              (cache_read_input_tokens t)
       else cache_read_input_tokens t) in
  mkLocals m (sessionId l) (totalCostUSD l) total (stepCount l + 1).

(** One iteration of the [for await] body. *)
Definition onMessage (l : Locals) (msg : SDKMessage) : Locals :=
  let l :=
    match msg with
    | MsgAssistant (Some u) _ => trackUsage u l
    | _ => l
    end in
  let l :=
    match msg with
    | MsgResult _ cost (Some _) _ =>
        mkLocals (metadata l) (sessionId l) cost (totalTokenUsage l)
          (stepCount l)
    | _ => l
    end in
  if JS.truthy (session_id_of msg)
  then mkLocals (metadata l) (session_id_of msg) (totalCostUSD l)
         (totalTokenUsage l) (stepCount l)
  else l.

Definition initLocals (m : GameMetadata) : Locals :=
  mkLocals m None 0%Q (mkTokenUsage 0 0 (Some 0) (Some 0)) 0.

Definition drain (events : list SDKMessage) (l : Locals) : Locals :=
  fold_left onMessage events l.

(** ** Reconciliation: "Update metadata with improvement count and
    session tracking" *)

Definition reconcile (reset : bool) (now : Z) (l : Locals) : GameMetadata :=
  let m := metadata l in
  let m := set_improvementCount (JS.orZero (improvementCount m) + 1) m in
  let m := set_hasActiveSession true m in
  let m := set_lastImprovementAt (Some (toISOString now)) m in
  let m := set_lastImprovementCost (Some (totalCostUSD l)) m in
  if reset || negb (JS.truthy (claudeSessionId m)) then
    let m := set_sessionImprovementCount (Some 1) m in
    if JS.truthy (sessionId l) then set_claudeSessionId (sessionId l) m
    else m
  else
    set_sessionImprovementCount
      (Some (JS.or0 (sessionImprovementCount m) + 1)) m.

(** ** Results *)

Definition failed (e : Thrown) : ImproveResult :=
  mkResult false
    ("Failed to improve game: " ++
     match e with JsError msg => msg | NonError => "Unknown error" end)%string.

Definition appliedWithErrors (m : GameMetadata) : ImproveResult :=
  mkResult true
    ("Improvement applied to " ++ name m ++
     " but with TypeScript errors. " ++
     "The game may not work correctly until these are fixed.")%string.

Definition applied (m : GameMetadata) : ImproveResult :=
  mkResult true ("Successfully applied improvement to " ++ name m)%string.

Definition afterFailedWrite (clobbered : bool) (d : GameDir) : GameDir :=
  if clobbered then BadMetadata else d.

(** ** [improveGame], from a loaded record to its result *)

Definition improveLoaded (w : World) (m0 : GameMetadata)
  : ImproveResult * GameDir :=
  let reset := shouldReset m0 (date_now w) in
  let l := drain (query_events w)
             (initLocals (afterDecision m0 (date_now w))) in
  match query_throws w with
  | Some e => (failed e, Game m0)
  | None =>
      let m := reconcile reset (date_done w) l in
      match writeFile w with
      | WriteFailed e clobbered =>
          (failed e, afterFailedWrite clobbered (Game m0))
      | Written =>
          match tsc w with
          | TscFailed _ => (appliedWithErrors m, Game m)
          | TscExit0 _ _ => (applied m, Game m)
          end
      end
  end.

(** A promise either rejects with a message or resolves. *)
Inductive Completion :=
| Rejected (msg : string)
| Resolved (r : ImproveResult).

Definition improveGame (w : World) (gameId : string) (d : GameDir)
  : Completion * GameDir :=
  match d with
  | NoSuchGame => (Rejected ("Game " ++ gameId ++ " not found")%string, d)
  | BadMetadata => (Rejected "Failed to load game metadata", d)
  | Game m0 =>
      (Resolved (fst (improveLoaded w m0)), snd (improveLoaded w m0))
  end.

(** ** The same function, one suspension point at a time

    The phases are the points at which [improveGame] awaits: before
    the stream is opened and between its events, before the metadata
    is written, and before the TypeScript check is run.  [file] is
    what a reader of [metadata.json] would find at that point. *)

Inductive Phase :=
| Deciding
| Invoking (pending : list SDKMessage)
| Persisting
| Verifying
| Returned (r : ImproveResult).

Record Config := mkConfig {
  phase : Phase;
  reset : bool;
  vars : Locals;
  file : GameDir
}.

Definition start (m0 : GameMetadata) : Config :=
  mkConfig Deciding false (initLocals m0) (Game m0).

Definition step (w : World) (c : Config) : Config :=
  match phase c with
  | Deciding =>
      let m0 := metadata (vars c) in
      mkConfig (Invoking (query_events w)) (shouldReset m0 (date_now w))
        (set_metadata (afterDecision m0 (date_now w)) (vars c)) (file c)
  | Invoking (msg :: pending) =>
      mkConfig (Invoking pending) (reset c) (onMessage (vars c) msg) (file c)
  | Invoking [] =>
      match query_throws w with
      | Some e => mkConfig (Returned (failed e)) (reset c) (vars c) (file c)
      | None =>
          mkConfig Persisting (reset c)
            (set_metadata (reconcile (reset c) (date_done w) (vars c))
               (vars c))
            (file c)
      end
  | Persisting =>
      match writeFile w with
      | WriteFailed e clobbered =>
          mkConfig (Returned (failed e)) (reset c) (vars c)
            (afterFailedWrite clobbered (file c))
      | Written =>
          mkConfig Verifying (reset c) (vars c) (Game (metadata (vars c)))
      end
  | Verifying =>
      match tsc w with
      | TscFailed _ =>
          mkConfig (Returned (appliedWithErrors (metadata (vars c))))
            (reset c) (vars c) (file c)
      | TscExit0 _ _ =>
          mkConfig (Returned (applied (metadata (vars c))))
            (reset c) (vars c) (file c)
      end
  | Returned _ => c
  end.

Fixpoint run (w : World) (n : nat) (c : Config) : Config :=
  match n with
  | O => c
  | S n => run w n (step w c)
  end.

(** Enough steps for any call to return. *)
Definition fuel (w : World) : nat := (List.length (query_events w) + 4)%nat.

(** The record that a call writes when its stream ends without
    throwing. *)
Definition reconciled (w : World) (m0 : GameMetadata) : GameMetadata :=
  reconcile (shouldReset m0 (date_now w)) (date_done w)
    (drain (query_events w) (initLocals (afterDecision m0 (date_now w)))).

(** ** Scaffolding: the record [generateGame] saves *)

Definition scaffoldMetadata (gameId gameName prompt : string) (now : Z)
    (sessionId : option string) : GameMetadata :=
  {| id := gameId;
     name := gameName;
     description :=
       ("AI-generated 3D game: " ++ substring 0 100 prompt ++ "...")%string;
     icon := "🎯";
     createdAt := toISOString now;
     claudeSessionId := sessionId;
     hasActiveSession := JS.truthy sessionId;
     improvementCount := 0;
     lastImprovementAt := None;
     contextSize := None;
     lastImprovementCost := None;
     sessionImprovementCount := None |}.

(** ** Histories of one game *)

(** A sequence of improvement requests on the same game, one after
    the other. *)
Definition improveMany (gameId : string) (ws : list World) (d : GameDir)
  : GameDir :=
  fold_left (fun d w => snd (improveGame w gameId d)) ws d.

(** What [metadata.json] can hold after scaffolding and any number of
    improvement requests. *)
Inductive reachable : GameDir -> Prop :=
| reach_scaffold gameId gameName prompt now sid :
    reachable (Game (scaffoldMetadata gameId gameName prompt now sid))
| reach_improve w gameId d :
    reachable d -> reachable (snd (improveGame w gameId d)).

(** The configurations a call on the record [m0] goes through: the
    start, the stream with some of its events consumed, the write
    and the check (both only once the stream has ended without
    throwing), and the return. *)
Inductive visited (w : World) (m0 : GameMetadata) : Config -> Prop :=
| at_start : visited w m0 (start m0)
| at_event (consumed pending : list SDKMessage) :
    query_events w = (consumed ++ pending)%list ->
    visited w m0
      (mkConfig (Invoking pending) (shouldReset m0 (date_now w))
         (drain consumed (initLocals (afterDecision m0 (date_now w))))
         (Game m0))
| at_write (l : Locals) :
    query_throws w = None ->
    visited w m0
      (mkConfig Persisting (shouldReset m0 (date_now w))
         (set_metadata (reconciled w m0) l) (Game m0))
| at_check (l : Locals) :
    query_throws w = None ->
    writeFile w = Written ->
    visited w m0
      (mkConfig Verifying (shouldReset m0 (date_now w))
         (set_metadata (reconciled w m0) l) (Game (reconciled w m0)))
| at_return (b : bool) (l : Locals) :
    visited w m0
      (mkConfig (Returned (fst (improveLoaded w m0))) b l
         (snd (improveLoaded w m0))).

End Policy.

(** ** The vocabulary of the specification

    A token, a timestamp or a cache-read size is present when the field
    holds a non-empty string, respectively a non-zero number: this is
    what the code's tests [!x], [x ? _ : _] and [if (x)] distinguish. *)

Definition sessionToken (m : GameMetadata) : option string :=
  if JS.truthy (claudeSessionId m) then claudeSessionId m else None.

Definition lastImprovementStamp (m : GameMetadata) : option string :=
  if JS.truthy (lastImprovementAt m) then lastImprovementAt m else None.

(** Milliseconds in five minutes. *)
Definition fiveMinutes : Z := 5 * 60 * 1000.

(** More than five minutes lie between the last improvement and [now]. *)
Definition cacheWindowExpired (getTime : string -> option Z)
    (m : GameMetadata) (now : Z) : Prop :=
  exists s t, lastImprovementStamp m = Some s /\ getTime s = Some t /\
              fiveMinutes < now - t.

(** The last improvement is at most five minutes before [now]. *)
Definition withinCacheWindow (getTime : string -> option Z)
    (m : GameMetadata) (now : Z) : Prop :=
  exists s t, lastImprovementStamp m = Some s /\ getTime s = Some t /\
              now - t <= fiveMinutes.

Definition sessionTooLong (m : GameMetadata) : Prop :=
  exists n, sessionImprovementCount m = Some n /\ 5 <= n.

Definition contextTooLarge (m : GameMetadata) : Prop :=
  exists c, contextSize m = Some c /\ 30000 < c.

Definition lastCostTooHigh (m : GameMetadata) : Prop :=
  exists q, lastImprovementCost m = Some q /\ (0.20 < q)%Q.

(** The session ids that the stream provided, in order. *)
Definition issuedSessionIds (events : list SDKMessage) : list (option string) :=
  filter JS.truthy (map session_id_of events).

(** The newly issued session token, if the invocation provided one. *)
Definition newSessionToken (events : list SDKMessage) : option string :=
  last (issuedSessionIds events) None.

(** The costs reported by the result messages of the stream. *)
Definition resultCosts (events : list SDKMessage) : list Q :=
  flat_map (fun msg =>
              match msg with
              | MsgResult _ cost (Some _) _ => [cost]
              | _ => []
              end) events.

(** The total cost reported by the invocation: that of its last result
    message, zero when it reported none. *)
Definition reportedCost (events : list SDKMessage) : Q :=
  last (resultCosts events) 0%Q.

(** The cache-read sizes signalled by the progress events. *)
Definition cacheReadSignals (events : list SDKMessage) : list Z :=
  flat_map (fun msg =>
              match msg with
              | MsgAssistant (Some u) _ =>
                  match cache_read_input_tokens u with
                  | Some c => if c =? 0 then [] else [c]
                  | None => []
                  end
              | _ => []
              end) events.

(** [sub] occurs in [s]. *)
Definition mentions (sub s : string) : Prop :=
  exists before after, s = (before ++ sub ++ after)%string.

(** ** A concrete clock

    Timestamps written as decimal milliseconds stand in for ISO 8601
    when the definitions are evaluated on concrete records. *)

Module DecimalClock.

Definition toISOString (t : Z) : string :=
  NilZero.string_of_int (Z.to_int t).

Definition getTime (s : string) : option Z :=
  option_map Z.of_int (NilZero.int_of_string s).

End DecimalClock.

(** ** Sample records and worlds *)

Module Samples.

(** A game as [generateGame] leaves it, with the session of its
    generation. *)
Definition scaffolded : GameMetadata :=
  scaffoldMetadata DecimalClock.toISOString "game_1" "Maze" "make a maze game"
    1000 (Some "gen-1").

(** The same, had the generation reported no session. *)
Definition blank : GameMetadata :=
  scaffoldMetadata DecimalClock.toISOString "game_1" "Maze" "make a maze game"
    1000 None.

(** Token "abc", improved three minutes ago, two improvements in the
    session, 5000 tokens of context, last cost 0.05. *)
Definition warm : GameMetadata :=
  {| id := "game_1"; name := "Maze"; description := "a maze"; icon := "m";
     createdAt := "1000";
     claudeSessionId := Some "abc";
     hasActiveSession := true;
     improvementCount := 2;
     lastImprovementAt := Some "600000";
     contextSize := Some 5000;
     lastImprovementCost := Some 0.05%Q;
     sessionImprovementCount := Some 2 |}.

Definition warmNow : Z := 600000 + 3 * 60 * 1000.

(** As [warm], with five improvements in the session. *)
Definition worn : GameMetadata := set_sessionImprovementCount (Some 5) warm.

(** As [warm], without a session id. *)
Definition tokenless : GameMetadata := set_claudeSessionId None warm.

(** As [warm], with only the two required session fields. *)
Definition bare : GameMetadata :=
  set_sessionImprovementCount None
    (set_lastImprovementCost None (set_contextSize None warm)).

Definition usage (cacheRead : option Z) : TokenUsage :=
  mkTokenUsage 10 20 None cacheRead.

(** A stream that reports a session id, two cache reads and a cost. *)
Definition talkative : list SDKMessage :=
  [ MsgSystem "init" (Some "s-1");
    MsgAssistant (Some (usage (Some 12000))) (Some "s-1");
    MsgAssistant (Some (usage (Some 17000))) (Some "s-1");
    MsgAssistant (Some (usage (Some 0))) (Some "s-1");
    MsgResult "success" 0.30%Q (Some (usage None)) (Some "s-1") ].

(** A stream that carries neither a session id nor a cache read. *)
Definition silent : list SDKMessage :=
  [ MsgAssistant (Some (usage None)) None;
    MsgResult "success" 0.10%Q (Some (usage None)) None ].

Definition world (events : list SDKMessage) (throws : option Thrown)
    (check : TscOutcome) : World :=
  {| date_now := warmNow;
     query_events := events;
     query_throws := throws;
     date_done := warmNow + 40000;
     writeFile := Written;
     tsc := check |}.

Definition clean : TscOutcome := TscExit0 EmptyString EmptyString.

Definition broken : TscOutcome :=
  TscFailed "room.ts(3,1): error TS2339: Property 'x' does not exist.".

Definition chatty : World := world talkative None clean.
Definition chattyBroken : World := world talkative None broken.
Definition quiet : World := world silent None clean.
Definition quietThrows : World := world silent (Some NonError) clean.
Definition aborted : World := world [] (Some (JsError "aborted")) clean.

(** What [scaffolded] becomes after one improvement whose stream is
    [silent]. *)
Definition afterSilent : GameMetadata :=
  reconciled DecimalClock.getTime DecimalClock.toISOString quiet scaffolded.

End Samples.

(** ** Further vocabulary: histories and token accounting *)

(** The stream ends without throwing and the metadata is written. *)
Definition completes (w : World) : bool :=
  match query_throws w, writeFile w with
  | None, Written => true
  | _, _ => false
  end.

(** The usage blocks of the assistant messages, in order. *)
Definition usageSteps (events : list SDKMessage) : list TokenUsage :=
  flat_map (fun msg =>
              match msg with
              | MsgAssistant (Some u) _ => [u]
              | _ => []
              end) events.

Definition sumZ (l : list Z) : Z := fold_right Z.add 0 l.

(** ** The session queries: [listGamesWithSessions], [getGameSessionInfo] *)

(** What the queries read of a parsed [metadata.json]; they take it as
    a [Partial<GameMetadata>], every field of which may be missing. *)
Record PartialMetadata := mkPartial {
  p_name : option string;
  p_description : option string;
  p_icon : option string;
  p_claudeSessionId : option string;
  p_improvementCount : option Z;
  p_createdAt : option string
}.

(** The record that [generateGame] and [improveGame] write, as the
    queries read it. *)
Definition partialOf (m : GameMetadata) : PartialMetadata :=
  mkPartial (Some (name m)) (Some (description m)) (Some (icon m))
    (claudeSessionId m) (Some (improvementCount m)) (Some (createdAt m)).

(** [metadata.json] as the queries find it: unreadable or not JSON;
    the JSON value [null], on which every property access throws; or
    an object (any other JSON value reads as an object without
    fields). *)
Inductive MetadataFile :=
| FileUnreadable
| FileNull
| FileRecord (p : PartialMetadata).

(** An entry of the games directory.  [folder_stat] is [fs.stat]:
    [None] when it throws, else whether the entry is a directory.
    [folder_claude] is the [.claude] directory, when there is one,
    with the listing of its [conversations] ([None] when that cannot
    be read). *)
Record GameFolder := mkFolder {
  folder_stat : option bool;
  folder_index : bool;
  folder_claude : option (option (list string));
  folder_file : MetadataFile
}.

Record GameSummary := mkSummary {
  sum_id : string;
  sum_name : string;
  sum_hasActiveSession : bool;
  sum_improvementCount : Z;
  sum_canImprove : bool;
  sum_createdAt : option string
}.

Record SessionInfo := mkInfo {
  info_gameId : string;
  info_gameName : string;
  info_hasSession : bool;
  info_improvementCount : Z;
  info_conversationCount : Z;
  info_claudeSessionPath : option string;
  info_canImprove : bool
}.

(** [s || d] on an optional string. *)
Definition orElse (s : option string) (d : string) : string :=
  if JS.truthy s then match s with Some x => x | None => d end else d.

Definition hasClaude (f : GameFolder) : bool :=
  match folder_claude f with Some _ => true | None => false end.

(** The body of the inner [try] of [listGamesWithSessions] for one
    directory: [None] when it throws and the entry is skipped. *)
Definition summarize (gameId : string) (f : GameFolder) : option GameSummary :=
  if folder_index f then
    let hasSession := hasClaude f in
    match folder_file f with
    | FileNull => None
    | FileUnreadable =>
        (* metadata = { id: gameId, name: gameId, improvementCount: 0 } *)
        Some (mkSummary gameId (orElse (Some gameId) gameId)
                (JS.truthy None || hasSession) (JS.or0 (Some 0)) true None)
    | FileRecord p =>
        Some (mkSummary gameId (orElse (p_name p) gameId)
                (JS.truthy (p_claudeSessionId p) || hasSession)
                (JS.or0 (p_improvementCount p)) true (p_createdAt p))
    end
  else None.

(** The [for] loop: [None] when an [fs.stat] throws. *)
Fixpoint listLoop (entries : list (string * GameFolder))
    (games : list GameSummary) : option (list GameSummary) :=
  match entries with
  | [] => Some games
  | (gameId, f) :: rest =>
      match folder_stat f with
      | None => None
      | Some true =>
          match summarize gameId f with
          | Some g => listLoop rest (games ++ [g])%list
          | None => listLoop rest games
          end
      | Some false => listLoop rest games
      end
  end.

(** [listGamesWithSessions]; the argument is [fs.readdir(gamesDir)],
    [None] when it throws. *)
Definition listGamesWithSessions (dir : option (list (string * GameFolder)))
  : list GameSummary :=
  match dir with
  | None => []
  | Some entries =>
      match listLoop entries [] with
      | Some games => games
      | None => []
      end
  end.

(** [getGameSessionInfo]; the argument is what [gamePath] leads to,
    [None] when [fs.access] fails.  The result is the message of the
    error thrown, or the info. *)
Definition getGameSessionInfo (gameId : string) (path : option GameFolder)
  : string + SessionInfo :=
  let notFound := inl ("Game " ++ gameId ++ " not found")%string in
  match path with
  | None => notFound
  | Some f =>
      let hasSession := hasClaude f in
      let conversationCount :=
        match folder_claude f with
        | Some (Some files) => Z.of_nat (List.length files)
        | _ => 0
        end in
      match folder_file f with
      | FileNull => notFound
      | FileUnreadable =>
          (* metadata = { id: gameId, improvementCount: 0 } *)
          inr (mkInfo gameId (orElse None gameId) hasSession
                 (JS.or0 (Some 0)) conversationCount
                 (if hasSession then Some ".claude" else None) true)
      | FileRecord p =>
          inr (mkInfo gameId (orElse (p_name p) gameId) hasSession
                 (JS.or0 (p_improvementCount p)) conversationCount
                 (if hasSession then Some ".claude" else None) true)
      end
  end.

(** The entry called [gameId], if any. *)
Definition lookupFolder (gameId : string)
    (entries : list (string * GameFolder)) : option GameFolder :=
  option_map snd (find (fun e => (fst e =? gameId)%string) entries).

(** The entries that the listing shows. *)
Definition listed (e : string * GameFolder) : bool :=
  match folder_stat (snd e), folder_file (snd e) with
  | Some true, FileNull => false
  | Some true, _ => folder_index (snd e)
  | _, _ => false
  end.

(** ** The improvement endpoint: [POST /api/improve-game] *)

(** A field of the request body, as far as the handler tells values
    apart: missing, a string, or anything else. *)
Inductive JsValue :=
| JsUndefined
| JsString (s : string)
| JsOther.

(** [!(!v || typeof v !== 'string')]. *)
Definition nonEmptyString (v : JsValue) : option string :=
  match v with
  | JsString s => if (s =? EmptyString)%string then None else Some s
  | _ => None
  end.

Inductive Payload :=
| ErrorJson (error : string)
| ResultJson (r : ImproveResult)
| GeneratedJson (gameName gameId : string).

Record Response := mkResponse {
  status : Z;
  payload : Payload
}.

(** Reloading the room module of the game after an improvement: the
    reload or the registration throws, the module has no room class,
    or it has one. *)
Inductive Reload :=
| ReloadThrows
| ReloadNoClass
| ReloadClass (roomClass : string).

(** What the handler did besides answering: the game it ran
    [improveGame] on, with the directory as the call left it, and the
    room class it registered for it. *)
Record Effects := mkEffects {
  improved : option (string * GameDir);
  defined : option (string * string)
}.

Section Endpoint.

Variable getTime : string -> option Z.
Variable toISOString : Z -> string.

(** The handler; [resolve] says what each game id leads to on disk. *)
Definition improveEndpoint (w : World) (reload : Reload)
    (gameId prompt : JsValue) (resolve : string -> GameDir)
  : Response * Effects :=
  match nonEmptyString gameId with
  | None => (mkResponse 400 (ErrorJson "Invalid game ID"), mkEffects None None)
  | Some g =>
      match nonEmptyString prompt with
      | None =>
          (mkResponse 400 (ErrorJson "Invalid prompt"), mkEffects None None)
      | Some _ =>
          match improveGame getTime toISOString w g (resolve g) with
          | (Rejected _, d) =>
              (mkResponse 500 (ErrorJson "Failed to improve game"),
               mkEffects (Some (g, d)) None)
          | (Resolved result, d) =>
              let registered :=
                if success result then
                  match reload with
                  | ReloadClass cls => Some (g, cls)
                  | _ => None
                  end
                else None in
              (mkResponse 200 (ResultJson result),
               mkEffects (Some (g, d)) registered)
          end
      end
  end.

End Endpoint.

(** ** A generated room: [Game896Room] *)

Module Room.

Record Player := mkPlayer {
  id : string;
  x : Q;
  y : Q;
  z : Q;
  rotation : Q;
  score : Q;
  ready : bool;
  isMoving : bool
}.

(** [new Player()]. *)
Definition newPlayer : Player :=
  mkPlayer EmptyString 0 0 0 0 0 false false.

(** A [MapSchema<Player>], looked up by session id. *)
Definition Players := string -> option Player.

Definition get (players : Players) (k : string) : option Player := players k.

Definition set (players : Players) (k : string) (p : Player) : Players :=
  fun k' => if (k' =? k)%string then Some p else players k'.

Definition delete (players : Players) (k : string) : Players :=
  fun k' => if (k' =? k)%string then None else players k'.

Record GameState := mkState {
  players : Players;
  gameStarted : bool;
  winnerId : string
}.

(** The payload of a "move" message. *)
Record MoveData := mkMove {
  data_x : Q;
  data_y : Q;
  data_z : Q;
  data_rotation : Q
}.

(** [onCreate]: [this.setState(new GameState())]. *)
Definition onCreate : GameState :=
  mkState (fun _ => None) false EmptyString.

(** The "move" handler.  The player object is updated in place. *)
Definition onMove (st : GameState) (sessionId : string) (data : MoveData)
  : GameState :=
  match get (players st) sessionId with
  | Some player =>
      mkState
        (set (players st) sessionId
           (mkPlayer (id player) (data_x data) (data_y data) (data_z data)
              (data_rotation data) (score player) (ready player) true))
        (gameStarted st) (winnerId st)
  | None => st
  end.

(** The "stopMove" handler. *)
Definition onStopMove (st : GameState) (sessionId : string) : GameState :=
  match get (players st) sessionId with
  | Some player =>
      mkState
        (set (players st) sessionId
           (mkPlayer (id player) (x player) (y player) (z player)
              (rotation player) (score player) (ready player) false))
        (gameStarted st) (winnerId st)
  | None => st
  end.

(** [onJoin]; [r1] and [r2] are the two draws of [Math.random()]. *)
Definition onJoin (st : GameState) (sessionId : string) (r1 r2 : Q)
  : GameState :=
  let player :=
    mkPlayer sessionId (r1 * 10 - 5)%Q 0 (r2 * 10 - 5)%Q 0
      (score newPlayer) (ready newPlayer) (isMoving newPlayer) in
  mkState (set (players st) sessionId player) (gameStarted st) (winnerId st).

(** [onLeave]. *)
Definition onLeave (st : GameState) (sessionId : string) : GameState :=
  mkState (delete (players st) sessionId) (gameStarted st) (winnerId st).

(** [update]: "Update game logic here". *)
Definition update (st : GameState) (deltaTime : Q) : GameState := st.

(** What happens to a room, one callback at a time. *)
Inductive Event :=
| Join (sessionId : string) (r1 r2 : Q)
| Leave (sessionId : string)
| Move (sessionId : string) (data : MoveData)
| StopMove (sessionId : string)
| Tick (deltaTime : Q).

Definition handle (st : GameState) (ev : Event) : GameState :=
  match ev with
  | Join c r1 r2 => onJoin st c r1 r2
  | Leave c => onLeave st c
  | Move c data => onMove st c data
  | StopMove c => onStopMove st c
  | Tick dt => update st dt
  end.

(** The room after the events, from its creation. *)
Definition after (events : list Event) : GameState :=
  fold_left handle events onCreate.

(** Whether the last thing a client did, among joining and leaving,
    was to join. *)
Fixpoint joined (events : list Event) (c : string) (before : bool) : bool :=
  match events with
  | [] => before
  | Join c' _ _ :: rest =>
      joined rest c (if (c =? c')%string then true else before)
  | Leave c' :: rest =>
      joined rest c (if (c =? c')%string then false else before)
  | _ :: rest => joined rest c before
  end.

End Room.

(** ** Generation: [generateGame] *)

(** What the outside world contributes to one generation.
    [gen_setup] is the first throw among creating the directory,
    writing the templates and copying the shared files, with whether
    the directory exists by then; these come before the [try]. *)
Record GenWorld := mkGenWorld {
  gen_now : Z;                        (* Date.now() in the game id *)
  gen_setup : option (Thrown * bool);
  gen_apiKey : bool;                  (* process.env.ANTHROPIC_API_KEY *)
  gen_events : list SDKMessage;
  gen_throws : option Thrown;
  gen_readdir : option Thrown;        (* fs.readdir(gamePath) *)
  gen_present : string -> bool;       (* fs.access of a required file *)
  gen_fixImports : option Thrown;     (* rewriting the import paths *)
  gen_saved : Z;                      (* new Date() in createdAt *)
  gen_writeMetadata : option Thrown;
  gen_rm : option Thrown              (* fs.rm in the catch *)
}.

Definition requiredFiles : list string :=
  ["client.js"; "room.ts"; "state.ts"; "index.html"].

(** The session id that the generation loop keeps: an init message
    sets it to whatever id it carries, and every message that carries
    a non-empty id sets it to that. *)
Definition onGenMessage (sessionId : option string) (msg : SDKMessage)
  : option string :=
  let sessionId :=
    match msg with
    | MsgSystem subtype sid =>
        if (subtype =? "init")%string then sid else sessionId
    | _ => sessionId
    end in
  if JS.truthy (session_id_of msg) then session_id_of msg else sessionId.

Definition genSessionId (events : list SDKMessage) : option string :=
  fold_left onGenMessage events None.

Inductive GenOutcome :=
| GenRejected (e : Thrown)
| GenResolved (gameName gameId : string).

Definition gameIdAt (now : Z) : string :=
  ("game_" ++ NilZero.string_of_int (Z.to_int now))%string.

Section Generation.

Variable toISOString : Z -> string.

(** The [catch]: remove the game directory and rethrow. *)
Definition cleanUp (w : GenWorld) (e : Thrown) : GenOutcome * GameDir :=
  match gen_rm w with
  | Some e' => (GenRejected e', BadMetadata)
  | None => (GenRejected e, NoSuchGame)
  end.

(** [generateGame]; [gameName] is [extractGameName(prompt)], whose
    regular expression is not modelled.  The result comes with what
    the new game directory is afterwards. *)
Definition generateGame (w : GenWorld) (gameName prompt : string)
  : GenOutcome * GameDir :=
  let gameId := gameIdAt (gen_now w) in
  match gen_setup w with
  | Some (e, created) =>
      (GenRejected e, if created then BadMetadata else NoSuchGame)
  | None =>
      if negb (gen_apiKey w) then
        cleanUp w (JsError "ANTHROPIC_API_KEY environment variable is required")
      else
        let sessionId := genSessionId (gen_events w) in
        match gen_throws w with
        | Some e => cleanUp w e
        | None =>
            match gen_readdir w with
            | Some e => cleanUp w e
            | None =>
                let missingFiles :=
                  filter (fun file => negb (gen_present w file))
                    requiredFiles in
                match missingFiles with
                | _ :: _ =>
                    cleanUp w
                      (JsError ("Failed to generate required files: " ++
                                String.concat ", " missingFiles))
                | [] =>
                    match gen_fixImports w with
                    | Some e => cleanUp w e
                    | None =>
                        match gen_writeMetadata w with
                        | Some e => cleanUp w e
                        | None =>
                            (GenResolved gameName gameId,
                             Game (scaffoldMetadata toISOString gameId
                                     gameName prompt (gen_saved w)
                                     sessionId))
                        end
                    end
                end
            end
        end
  end.

End Generation.

(** ** The generation endpoint: [POST /api/generate-game] *)

Section GenerationEndpoint.

Variable toISOString : Z -> string.


End GenerationEndpoint.

(** ** The games listing: [GET /api/games] *)

Record ApiGame := mkApiGame {
  api_id : string;
  api_name : string;
  api_description : string;
  api_icon : string;
  api_url : string
}.

(** [\d]. *)
Definition isDigit (c : ascii) : bool :=
  ((48 <=? nat_of_ascii c) && (nat_of_ascii c <=? 57))%nat.

(** The longest run of digits at the head of a string. *)
Fixpoint takeDigits (s : string) : string :=
  match s with
  | String c rest => if isDigit c then String c (takeDigits rest) else EmptyString
  | EmptyString => EmptyString
  end.

(** [/game_(\d+)/] tried at the head of a string: the digits
    captured. *)
Definition matchGameHere (s : string) : option string :=
  if prefix "game_" s then
    let digits := takeDigits (substring 5 (String.length s - 5) s) in
    if (digits =? EmptyString)%string then None else Some digits
  else None.

(** [gameId.match(/game_(\d+)/)]: the capture of the leftmost
    match. *)
Fixpoint matchGame (s : string) : option string :=
  match matchGameHere s with
  | Some digits => Some digits
  | None =>
      match s with
      | String _ rest => matchGame rest
      | EmptyString => None
      end
  end.

Definition generatedDescription : string := "AI-generated 3D multiplayer game".

(** The body of the inner [try] for one directory: [None] when there
    is no [index.html]. *)
Definition describe (gameId : string) (f : GameFolder) : option ApiGame :=
  if folder_index f then
    let url := ("/games/" ++ gameId ++ "/")%string in
    if (gameId =? "pong")%string then
      Some (mkApiGame gameId "Pong"
              "Classic arcade action! Control your paddle to bounce the ball past your opponent. First to 5 points wins!"
              "🏓" url)
    else if (gameId =? "snake")%string then
      Some (mkApiGame gameId "Snake"
              "Competitive snake game! Eat food to grow longer while avoiding walls and your opponent. Last snake slithering wins!"
              "🐍" url)
    else
      match folder_file f with
      | FileRecord p =>
          Some (mkApiGame gameId (orElse (p_name p) gameId)
                  (orElse (p_description p) generatedDescription)
                  (orElse (p_icon p) "🎯") url)
      | _ =>
          (* reading the metadata threw: fall back on the id *)
          match matchGame gameId with
          | Some digits =>
              Some (mkApiGame gameId ("Game " ++ digits)%string
                      generatedDescription "🎯" url)
          | None => Some (mkApiGame gameId gameId EmptyString "🎮" url)
          end
      end
  else None.

Fixpoint apiLoop (entries : list (string * GameFolder)) (games : list ApiGame)
  : option (list ApiGame) :=
  match entries with
  | [] => Some games
  | (gameId, f) :: rest =>
      match folder_stat f with
      | None => None
      | Some true =>
          match describe gameId f with
          | Some g => apiLoop rest (games ++ [g])%list
          | None => apiLoop rest games
          end
      | Some false => apiLoop rest games
      end
  end.

(** The handler: the status and either the error or the games. *)
Definition apiGames (dir : option (list (string * GameFolder)))
  : Z * (string + list ApiGame) :=
  match dir with
  | None => (500, inl "Failed to list games")
  | Some entries =>
      match apiLoop entries [] with
      | Some games => (200, inr games)
      | None => (500, inl "Failed to list games")
      end
  end.

(** The entries that [/api/games] shows. *)
Definition visible (e : string * GameFolder) : bool :=
  match folder_stat (snd e) with
  | Some true => folder_index (snd e)
  | _ => false
  end.

(** ** The cost analysis that closes a successful improvement *)






Section Analysis.

Variable getTime : string -> option Z.


End Analysis.

(** ** More sample data *)

Module Cases.

(** As [Samples.warm], with a context of 45000 tokens. *)
Definition bloated : GameMetadata := set_contextSize (Some 45000) Samples.warm.

(** A directory with an [index.html]. *)
Definition playable (file : MetadataFile)
    (claude : option (option (list string))) : GameFolder :=
  mkFolder (Some true) true claude file.

(** A games directory: an improved game, a plain file, a game without
    metadata but with two conversations, a game whose metadata is
    [null], and a directory without [index.html]. *)
Definition shelf : list (string * GameFolder) :=
  [ ("game_1", playable (FileRecord (partialOf Samples.afterSilent)) None);
    ("notes.txt", mkFolder (Some false) false None FileUnreadable);
    ("game_2", playable FileUnreadable (Some (Some ["c1.json"; "c2.json"])));
    ("game_3", playable FileNull None);
    ("draft", mkFolder (Some true) false None FileUnreadable) ].

(** The same, followed by an entry on which [fs.stat] throws. *)
Definition brokenShelf : list (string * GameFolder) :=
  (shelf ++ [("gone", mkFolder None false None FileUnreadable)])%list.

(** A generation in which nothing goes wrong. *)
Definition smooth : GenWorld :=
  {| gen_now := 1755120361896;
     gen_setup := None;
     gen_apiKey := true;
     gen_events := Samples.talkative;
     gen_throws := None;
     gen_readdir := None;
     gen_present := fun _ => true;
     gen_fixImports := None;
     gen_saved := 1755120400000;
     gen_writeMetadata := None;
     gen_rm := None |}.

Definition step1 : Room.MoveData := Room.mkMove 1 0 2 0.5.

(** Two clients join, one moves, the other leaves and then sends a
    message. *)
Definition evening : list Room.Event :=
  [ Room.Join "a" 0.25 0.75; Room.Join "b" 0.5 0.5; Room.Move "a" step1;
    Room.Tick 16; Room.Leave "b"; Room.StopMove "b" ].

End Cases.

(** * Properties *)

(** ** Arithmetic of the thresholds *)

Lemma orZero_id (x : Z) : JS.orZero x = x.
Proof. unfold JS.orZero. destruct (Z.eqb_spec x 0); congruence. Qed.

Lemma Qgtb_lt (a b : Q) : JS.Qgtb a b = true <-> (b < a)%Q.
Proof.
  unfold JS.Qgtb. rewrite negb_true_iff. split; intro H.
  - apply Qnot_le_lt. intro Hle. apply Qle_bool_iff in Hle. congruence.
  - destruct (Qle_bool a b) eqn:E; [|reflexivity].
    apply Qle_bool_iff in E. exfalso. exact (Qlt_not_le _ _ H E).
Qed.

(** The minutes computed by the code exceed 5 exactly when more than
    300000 milliseconds have passed. *)
Lemma minutes_gt5 (d : Z) :
  JS.gt (JS.Num (inject_Z d / 1000 / 60)%Q) 5 = true <-> fiveMinutes < d.
Proof.
  unfold JS.gt. rewrite Qgtb_lt.
  unfold Qlt, Qdiv, Qmult, Qinv, inject_Z, fiveMinutes; simpl. lia.
Qed.

Lemma or0_ge5 (x : option Z) :
  (5 <=? JS.or0 x) = true <-> exists n, x = Some n /\ 5 <= n.
Proof.
  rewrite Z.leb_le. destruct x as [n|]; simpl; [rewrite orZero_id|].
  - split; [eauto|]. intros (k & [= ->] & Hk). exact Hk.
  - split; [lia|]. intros (k & Hk & _). discriminate.
Qed.

Lemma or0_gt30000 (x : option Z) :
  (30000 <? JS.or0 x) = true <-> exists c, x = Some c /\ 30000 < c.
Proof.
  rewrite Z.ltb_lt. destruct x as [n|]; simpl; [rewrite orZero_id|].
  - split; [eauto|]. intros (k & [= ->] & Hk). exact Hk.
  - split; [lia|]. intros (k & Hk & _). discriminate.
Qed.

Lemma or0Q_gt (x : option Q) :
  JS.Qgtb (JS.or0Q x) 0.20 = true <-> exists q, x = Some q /\ (0.20 < q)%Q.
Proof.
  rewrite Qgtb_lt. destruct x as [q|]; simpl.
  - destruct (Qeq_bool q 0) eqn:E.
    + apply Qeq_bool_iff in E. split.
      * intro H. exfalso. revert H. unfold Qlt; simpl; lia.
      * intros (k & [= <-] & Hk). rewrite E in Hk. exact Hk.
    + split; [eauto|]. intros (k & [= ->] & Hk). exact Hk.
  - split.
    + unfold Qlt; simpl; lia.
    + intros (k & Hk & _). discriminate.
Qed.

Lemma sessionToken_None (m : GameMetadata) :
  JS.truthy (claudeSessionId m) = false <-> sessionToken m = None.
Proof.
  unfold sessionToken. destruct (claudeSessionId m) as [s|] eqn:E; simpl.
  - destruct (s =? EmptyString)%string; simpl; split; congruence.
  - tauto.
Qed.

(** No token present: the field is undefined or the empty string. *)
Lemma sessionToken_absent_or_empty (m : GameMetadata) :
  sessionToken m = None <->
  claudeSessionId m = None \/ claudeSessionId m = Some EmptyString.
Proof.
  unfold sessionToken, JS.truthy.
  destruct (claudeSessionId m) as [s|]; [|tauto].
  destruct (String.eqb_spec s EmptyString); simpl.
  - subst. tauto.
  - split; [discriminate|]. intros [H|H]; congruence.
Qed.

Lemma sessionToken_Some (m : GameMetadata) (tok : string) :
  sessionToken m = Some tok ->
  claudeSessionId m = Some tok /\ JS.truthy (claudeSessionId m) = true.
Proof.
  unfold sessionToken.
  destruct (JS.truthy (claudeSessionId m)); [|discriminate].
  auto.
Qed.

(** ** The decision (section 4.1) *)

Section DecisionFacts.

Variable getTime : string -> option Z.

Lemma timeSince_None (m : GameMetadata) (now : Z) :
  timeSinceLastImprovement getTime m now = None <->
  lastImprovementStamp m = None.
Proof.
  unfold timeSinceLastImprovement, lastImprovementStamp.
  destruct (lastImprovementAt m) as [s|]; simpl; [|tauto].
  destruct (s =? EmptyString)%string; simpl; [tauto|].
  destruct (getTime s); split; discriminate.
Qed.

Lemma timeSince_expired (m : GameMetadata) (now : Z) :
  (exists t, timeSinceLastImprovement getTime m now = Some t /\
             JS.gt t 5 = true) <->
  cacheWindowExpired getTime m now.
Proof.
  unfold timeSinceLastImprovement, cacheWindowExpired, lastImprovementStamp.
  destruct (lastImprovementAt m) as [s|]; simpl.
  2:{ split; [intros (t & H & _)|intros (s & t & H & _)]; discriminate. }
  destruct (s =? EmptyString)%string; simpl.
  { split; [intros (t & H & _)|intros (s' & t & H & _)]; discriminate. }
  destruct (getTime s) as [t0|] eqn:Et.
  - split.
    + intros (t & [= <-] & Hgt). apply minutes_gt5 in Hgt. eauto.
    + intros (s' & t & [= <-] & Ht & Hlt).
      rewrite Et in Ht. injection Ht as <-.
      eexists; split; [reflexivity|]. now apply minutes_gt5.
  - split.
    + intros (t & [= <-] & Hgt). discriminate.
    + intros (s' & t & [= <-] & Ht & _). congruence.
Qed.

(** The decision is the disjunction of the six conditions. *)
Lemma shouldReset_iff (m : GameMetadata) (now : Z) :
  shouldReset getTime m now = true <->
    sessionToken m = None
    \/ lastImprovementStamp m = None
    \/ cacheWindowExpired getTime m now
    \/ sessionTooLong m
    \/ contextTooLarge m
    \/ lastCostTooHigh m.
Proof.
  unfold shouldReset.
  rewrite !orb_true_iff, negb_true_iff, sessionToken_None,
    or0_ge5, or0_gt30000, or0Q_gt.
  rewrite <- timeSince_None with (now := now).
  rewrite <- timeSince_expired.
  unfold sessionTooLong, contextTooLarge, lastCostTooHigh.
  destruct (timeSinceLastImprovement getTime m now) as [t|].
  - split.
    + intros [[[[H|H]|H]|H]|H]; eauto 10.
    + intros [H|[H|[(t' & Et & H)|[H|[H|H]]]]]; try discriminate; auto 10.
      injection Et as <-. auto 10.
  - tauto.
Qed.

(** C1. The session-policy decision is FRESH if and only if at least
    one of the six conditions holds: no session token present, no
    timestamp of a last improvement, more than five minutes elapsed
    since it, five or more improvements in the session, a context of
    more than 30000 tokens, a last cost above 0.20.  In particular a
    record with a token, improved at most five minutes ago, with
    fewer than five session improvements, a context of at most 30000
    and a last cost of at most 0.20 is resumed (with its own token),
    and a record without a token starts fresh whatever its other
    fields hold. *)
Theorem decision_fresh_iff_any_condition (m : GameMetadata) (now : Z) :
  (shouldReset getTime m now = true <->
     sessionToken m = None
     \/ lastImprovementStamp m = None
     \/ cacheWindowExpired getTime m now
     \/ sessionTooLong m
     \/ contextTooLarge m
     \/ lastCostTooHigh m)
  /\ (forall tok,
        sessionToken m = Some tok ->
        withinCacheWindow getTime m now ->
        (forall n, sessionImprovementCount m = Some n -> n < 5) ->
        (forall c, contextSize m = Some c -> c <= 30000) ->
        (forall q, lastImprovementCost m = Some q -> (q <= 0.20)%Q) ->
        shouldReset getTime m now = false
        /\ resumeOption getTime m now = Some tok)
  /\ (sessionToken m = None -> shouldReset getTime m now = true).
Proof.
  split; [apply shouldReset_iff|]. split.
  - intros tok Htok (s & t & Hs & Ht & Hle) Hn Hc Hq.
    assert (Hno : shouldReset getTime m now = false).
    { apply not_true_is_false. rewrite shouldReset_iff.
      intros [H|[H|[(s' & t' & Hs' & Ht' & Hlt)
                   |[(n & En & Hn')|[(c & Ec & Hc')|(q & Eq & Hq')]]]]].
      - congruence.
      - congruence.
      - rewrite Hs in Hs'. injection Hs' as <-.
        rewrite Ht in Ht'. injection Ht' as <-. lia.
      - specialize (Hn _ En). lia.
      - specialize (Hc _ Ec). lia.
      - specialize (Hq _ Eq). exact (Qlt_not_le _ _ Hq' Hq). }
    split; [exact Hno|].
    unfold resumeOption, afterDecision. rewrite Hno. simpl.
    destruct (sessionToken_Some _ _ Htok) as [-> ->]. reflexivity.
  - intro H. apply shouldReset_iff. auto.
Qed.

(** C10. An absent [contextSize], [sessionImprovementCount] or
    [lastImprovementCost] is read as 0 by the decision: the decision
    is the one taken for the record with the field set to 0, and an
    absent field does not satisfy its own condition.  For a record
    that omits all three only the token and the timestamp decide;
    the scaffolded record is such a record. *)
Theorem absent_fields_count_as_zero (m : GameMetadata) (now : Z) :
  (contextSize m = None ->
     shouldReset getTime m now
     = shouldReset getTime (set_contextSize (Some 0) m) now
     /\ ~ contextTooLarge m)
  /\ (sessionImprovementCount m = None ->
        shouldReset getTime m now
        = shouldReset getTime (set_sessionImprovementCount (Some 0) m) now
        /\ ~ sessionTooLong m)
  /\ (lastImprovementCost m = None ->
        shouldReset getTime m now
        = shouldReset getTime (set_lastImprovementCost (Some 0%Q) m) now
        /\ ~ lastCostTooHigh m)
  /\ (contextSize m = None ->
      sessionImprovementCount m = None ->
      lastImprovementCost m = None ->
      (shouldReset getTime m now = true <->
         sessionToken m = None
         \/ lastImprovementStamp m = None
         \/ cacheWindowExpired getTime m now))
  /\ (forall toISOString gameId gameName prompt t sid,
        let s := scaffoldMetadata toISOString gameId gameName prompt t sid in
        contextSize s = None
        /\ sessionImprovementCount s = None
        /\ lastImprovementCost s = None).
Proof.
  split; [|split; [|split; [|split]]].
  - intro H. split.
    + unfold shouldReset, timeSinceLastImprovement; simpl. now rewrite H.
    + intros (c & Hc & _). congruence.
  - intro H. split.
    + unfold shouldReset, timeSinceLastImprovement; simpl. now rewrite H.
    + intros (c & Hc & _). congruence.
  - intro H. split.
    + unfold shouldReset, timeSinceLastImprovement; simpl. now rewrite H.
    + intros (c & Hc & _). congruence.
  - intros Hc Hn Hq. rewrite shouldReset_iff. split.
    + intros [Hr|[Hr|[Hr|[(n & En & _)|[(c & Ec & _)|(q & Eq & _)]]]]];
        auto; congruence.
    + tauto.
  - intros toISOString gameId gameName prompt t sid s.
    split; [|split]; reflexivity.
Qed.

(** X20. On a record that still holds a token, the reason printed for
    a fresh start is that of the first condition that holds, among
    the second to the sixth. *)
Lemma reason_with_token (m : GameMetadata) (now : Z) (tok : string) :
  sessionToken m = Some tok ->
  shouldReset getTime m now = true ->
  exists r, reportedReason getTime m now = Some r /\
    match r with
    | FirstImprovement => lastImprovementStamp m = None
    | CacheExpired _ =>
        lastImprovementStamp m <> None /\ cacheWindowExpired getTime m now
    | SessionTooLong _ =>
        lastImprovementStamp m <> None /\ ~ cacheWindowExpired getTime m now
        /\ sessionTooLong m
    | ContextTooLarge _ =>
        lastImprovementStamp m <> None /\ ~ cacheWindowExpired getTime m now
        /\ ~ sessionTooLong m /\ contextTooLarge m
    | LastCostTooHigh _ =>
        lastImprovementStamp m <> None /\ ~ cacheWindowExpired getTime m now
        /\ ~ sessionTooLong m /\ ~ contextTooLarge m /\ lastCostTooHigh m
    end.
Proof.
  intros Htok Hreset. unfold reportedReason. rewrite Hreset.
  assert (Htr : JS.truthy (claudeSessionId m) = true)
    by (apply (sessionToken_Some _ _ Htok)).
  unfold shouldReset in Hreset. rewrite Htr in Hreset. simpl in Hreset.
  unfold resetReason.
  pose proof (timeSince_None m now) as HN.
  pose proof (timeSince_expired m now) as HE.
  destruct (timeSinceLastImprovement getTime m now) as [t|].
  - assert (Hstamp : lastImprovementStamp m <> None)
      by (intro H; apply HN in H; discriminate).
    destruct (JS.gt t 5) eqn:Egt.
    { eexists; split; [reflexivity|]. split; [exact Hstamp|].
      apply HE. eauto. }
    assert (Hnot : ~ cacheWindowExpired getTime m now).
    { intro H. apply HE in H. destruct H as (t' & [= <-] & H). congruence. }
    simpl in Hreset.
    destruct (5 <=? _) eqn:E5.
    { eexists; split; [reflexivity|]. repeat split; auto.
      now apply or0_ge5. }
    assert (H5 : ~ sessionTooLong m).
    { intro H. apply or0_ge5 in H. congruence. }
    simpl in Hreset.
    destruct (30000 <? _) eqn:E3.
    { eexists; split; [reflexivity|]. repeat split; auto.
      now apply or0_gt30000. }
    assert (H3 : ~ contextTooLarge m).
    { intro H. apply or0_gt30000 in H. congruence. }
    simpl in Hreset. rewrite Hreset.
    eexists; split; [reflexivity|]. repeat split; auto.
    now apply or0Q_gt.
  - eexists; split; [reflexivity|]. now apply HN.
Qed.

(** On a record without a token that satisfies none of the other five
    conditions, the decision is FRESH and no reason is printed: the
    chain has no branch for the missing session id. *)
Lemma missing_token_has_no_reason (m : GameMetadata) (now : Z) :
  sessionToken m = None ->
  lastImprovementStamp m <> None ->
  ~ cacheWindowExpired getTime m now ->
  ~ sessionTooLong m ->
  ~ contextTooLarge m ->
  ~ lastCostTooHigh m ->
  shouldReset getTime m now = true /\ reportedReason getTime m now = None.
Proof.
  intros Htok Hstamp Hwin Hlong Hctx Hcost.
  assert (Hreset : shouldReset getTime m now = true)
    by (apply shouldReset_iff; auto).
  split; [exact Hreset|].
  unfold reportedReason, resetReason. rewrite Hreset.
  pose proof (timeSince_None m now) as HN.
  pose proof (timeSince_expired m now) as HE.
  destruct (timeSinceLastImprovement getTime m now) as [t|].
  - destruct (JS.gt t 5) eqn:Egt.
    { exfalso. apply Hwin, HE. eauto. }
    destruct (5 <=? _) eqn:E5.
    { exfalso. now apply Hlong, or0_ge5. }
    destruct (30000 <? _) eqn:E3.
    { exfalso. now apply Hctx, or0_gt30000. }
    destruct (JS.Qgtb _ _) eqn:Eq.
    { exfalso. now apply Hcost, or0Q_gt. }
    reflexivity.
  - exfalso. now apply Hstamp, HN.
Qed.

End DecisionFacts.

(** ** The stream loop *)

Lemma last_cons {A : Type} (x d : A) (l : list A) :
  last (x :: l) d = last l x.
Proof.
  revert x d. induction l as [|y l IH]; intros x d; [reflexivity|].
  change (last (x :: y :: l) d) with (last (y :: l) d).
  now rewrite (IH y d), (IH y x).
Qed.

Lemma set_contextSize_same (m : GameMetadata) :
  set_contextSize (contextSize m) m = m.
Proof. now destruct m. Qed.

(** One message only ever touches [contextSize] in the record. *)
Lemma onMessage_metadata (l : Locals) (msg : SDKMessage) :
  metadata (onMessage l msg)
  = set_contextSize (contextSize (metadata (onMessage l msg))) (metadata l).
Proof.
  unfold onMessage, trackUsage.
  destruct msg as [[u|] sid|st c [u|] sid|st sid|sid]; simpl;
    destruct (JS.truthy sid); simpl;
    try destruct (JS.truthyZ (cache_read_input_tokens u)); simpl;
    now rewrite ?set_contextSize_same.
Qed.

Lemma onMessage_contextSize (l : Locals) (msg : SDKMessage) :
  contextSize (metadata (onMessage l msg))
  = last (map Some (cacheReadSignals [msg])) (contextSize (metadata l)).
Proof.
  unfold onMessage, trackUsage, cacheReadSignals.
  destruct msg as [[u|] sid|st c [u|] sid|st sid|sid]; simpl;
    destruct (JS.truthy sid); simpl; try reflexivity;
    destruct (cache_read_input_tokens u) as [c'|]; simpl; try reflexivity;
    destruct (c' =? 0); reflexivity.
Qed.

Lemma onMessage_sessionId (l : Locals) (msg : SDKMessage) :
  sessionId (onMessage l msg)
  = last (issuedSessionIds [msg]) (sessionId l).
Proof.
  unfold onMessage, issuedSessionIds.
  destruct msg as [[u|] sid|st c [u|] sid|st sid|sid]; simpl;
    destruct (JS.truthy sid); reflexivity.
Qed.

Lemma onMessage_totalCost (l : Locals) (msg : SDKMessage) :
  totalCostUSD (onMessage l msg)
  = last (resultCosts [msg]) (totalCostUSD l).
Proof.
  unfold onMessage, resultCosts.
  destruct msg as [[u|] sid|st c [u|] sid|st sid|sid]; simpl;
    destruct (JS.truthy sid); reflexivity.
Qed.

Lemma last_app_default {A : Type} (l1 l2 : list A) (d : A) :
  last (l1 ++ l2)%list d = last l2 (last l1 d).
Proof.
  revert d. induction l1 as [|x l1 IH]; intro d; [reflexivity|].
  change ((x :: l1) ++ l2)%list with (x :: (l1 ++ l2))%list.
  now rewrite !last_cons, IH.
Qed.

Lemma flat_map_head {A B : Type} (f : A -> list B) (x : A) (l : list A) :
  flat_map f (x :: l) = (flat_map f [x] ++ flat_map f l)%list.
Proof. simpl. now rewrite app_nil_r. Qed.

Lemma cacheReadSignals_cons (msg : SDKMessage) (events : list SDKMessage) :
  cacheReadSignals (msg :: events)
  = (cacheReadSignals [msg] ++ cacheReadSignals events)%list.
Proof. apply flat_map_head. Qed.

Lemma resultCosts_cons (msg : SDKMessage) (events : list SDKMessage) :
  resultCosts (msg :: events) = (resultCosts [msg] ++ resultCosts events)%list.
Proof. apply flat_map_head. Qed.

Lemma drain_cons (msg : SDKMessage) (events : list SDKMessage) (l : Locals) :
  drain (msg :: events) l = drain events (onMessage l msg).
Proof. reflexivity. Qed.

Lemma drain_metadata (events : list SDKMessage) (l : Locals) :
  metadata (drain events l)
  = set_contextSize (contextSize (metadata (drain events l))) (metadata l).
Proof.
  revert l. induction events as [|msg events IH]; intro l.
  - simpl. now rewrite set_contextSize_same.
  - rewrite drain_cons, IH at 1. now rewrite onMessage_metadata.
Qed.

Lemma drain_contextSize (events : list SDKMessage) (l : Locals) :
  contextSize (metadata (drain events l))
  = last (map Some (cacheReadSignals events)) (contextSize (metadata l)).
Proof.
  revert l. induction events as [|msg events IH]; intro l; [reflexivity|].
  rewrite drain_cons, IH, onMessage_contextSize.
  now rewrite (cacheReadSignals_cons msg events), map_app, last_app_default.
Qed.

Lemma drain_sessionId (events : list SDKMessage) (l : Locals) :
  sessionId (drain events l) = last (issuedSessionIds events) (sessionId l).
Proof.
  revert l. induction events as [|msg events IH]; intro l; [reflexivity|].
  rewrite drain_cons, IH, onMessage_sessionId.
  replace (issuedSessionIds (msg :: events))
    with (issuedSessionIds [msg] ++ issuedSessionIds events)%list.
  - now rewrite last_app_default.
  - unfold issuedSessionIds. simpl.
    now destruct (JS.truthy (session_id_of msg)).
Qed.

Lemma drain_totalCost (events : list SDKMessage) (l : Locals) :
  totalCostUSD (drain events l) = last (resultCosts events) (totalCostUSD l).
Proof.
  revert l. induction events as [|msg events IH]; intro l; [reflexivity|].
  rewrite drain_cons, IH, onMessage_totalCost.
  now rewrite (resultCosts_cons msg events), last_app_default.
Qed.

(** The ids that count as issued are non-empty strings. *)
Lemma issued_truthy (events : list SDKMessage) :
  JS.truthy (newSessionToken events) = true <-> newSessionToken events <> None.
Proof.
  unfold newSessionToken.
  assert (H : Forall (fun s => JS.truthy s = true) (issuedSessionIds events)).
  { apply Forall_forall. intros s Hs. now apply filter_In in Hs. }
  induction H as [|s l Hs Hl IH]; simpl.
  - split; [discriminate|congruence].
  - destruct l as [|s' l].
    + split; [|auto]. intros _ ->. discriminate.
    + exact IH.
Qed.

Lemma last_map_Some {A : Type} (c : A) (cs : list A) (d : option A) :
  last (map Some (c :: cs)) d = Some (last cs c).
Proof.
  simpl map. rewrite last_cons. revert c.
  induction cs as [|x cs IH]; intro c; [reflexivity|].
  simpl map. now rewrite !last_cons, IH.
Qed.

(** ** Reconciliation (section 4.2) *)

Section ReconciliationFacts.

Variable getTime : string -> option Z.
Variable toISOString : Z -> string.

(** The record held in memory when the stream has been drained: the
    record after the decision, but for [contextSize]. *)
Lemma drained_metadata (w : World) (m0 : GameMetadata)
    (events : list SDKMessage) :
  let l := drain events (initLocals (afterDecision getTime m0 (date_now w))) in
  metadata l
  = set_contextSize (contextSize (metadata l))
      (afterDecision getTime m0 (date_now w)).
Proof. intro l. unfold l. now rewrite drain_metadata at 1. Qed.

Lemma shouldReset_false_truthy (m : GameMetadata) (now : Z) :
  shouldReset getTime m now = false -> JS.truthy (claudeSessionId m) = true.
Proof.
  unfold shouldReset. intro H.
  destruct (JS.truthy (claudeSessionId m)); [reflexivity|discriminate].
Qed.

Lemma reconciled_fresh (w : World) (m0 : GameMetadata) :
  shouldReset getTime m0 (date_now w) = true ->
  sessionImprovementCount (reconciled getTime toISOString w m0) = Some 1
  /\ claudeSessionId (reconciled getTime toISOString w m0)
     = newSessionToken (query_events w).
Proof.
  intro Hr. unfold reconciled, reconcile. rewrite Hr. simpl orb. cbv iota.
  rewrite drain_sessionId. simpl sessionId.
  change (last (issuedSessionIds (query_events w)) None)
    with (newSessionToken (query_events w)).
  pose proof (issued_truthy (query_events w)) as Hiss.
  destruct (JS.truthy (newSessionToken (query_events w))) eqn:Et.
  - split; reflexivity.
  - split; [reflexivity|]. simpl.
    rewrite drained_metadata. simpl.
    unfold afterDecision. rewrite Hr. simpl.
    destruct (newSessionToken (query_events w)) as [s|]; [|reflexivity].
    assert (false = true) by (apply Hiss; discriminate). discriminate.
Qed.

Lemma reconciled_resume (w : World) (m0 : GameMetadata) :
  shouldReset getTime m0 (date_now w) = false ->
  sessionImprovementCount (reconciled getTime toISOString w m0)
  = Some (JS.or0 (sessionImprovementCount m0) + 1)
  /\ claudeSessionId (reconciled getTime toISOString w m0) = claudeSessionId m0.
Proof.
  intro Hr. pose proof (shouldReset_false_truthy _ _ Hr) as Ht.
  unfold reconciled, reconcile. rewrite Hr. simpl orb.
  rewrite drained_metadata. simpl.
  unfold afterDecision. rewrite Hr, Ht. simpl. auto.
Qed.

(** C2. Reconciliation after a FRESH decision gives
    [sessionImprovementCount = 1] and adopts the session token that
    the invocation issued, leaving the token absent when it issued
    none; after a RESUME decision it adds one to the session count
    (an absent count reads as 0) and keeps the token. *)
Theorem reconciliation_session_tracking (w : World) (m0 : GameMetadata) :
  (shouldReset getTime m0 (date_now w) = true ->
     sessionImprovementCount (reconciled getTime toISOString w m0) = Some 1
     /\ claudeSessionId (reconciled getTime toISOString w m0)
        = newSessionToken (query_events w)
     /\ (issuedSessionIds (query_events w) = [] ->
         claudeSessionId (reconciled getTime toISOString w m0) = None))
  /\ (shouldReset getTime m0 (date_now w) = false ->
        sessionImprovementCount (reconciled getTime toISOString w m0)
        = Some (JS.or0 (sessionImprovementCount m0) + 1)
        /\ claudeSessionId (reconciled getTime toISOString w m0)
           = claudeSessionId m0).
Proof.
  split.
  - intro Hr. destruct (reconciled_fresh w m0 Hr) as [Hc Ht].
    repeat split; auto. intro Hnone. rewrite Ht.
    unfold newSessionToken. now rewrite Hnone.
  - apply reconciled_resume.
Qed.

(** The counter and the cost that every reconciliation writes. *)
Lemma reconciled_count_and_cost (w : World) (m0 : GameMetadata) :
  improvementCount (reconciled getTime toISOString w m0)
  = improvementCount m0 + 1
  /\ lastImprovementCost (reconciled getTime toISOString w m0)
     = Some (reportedCost (query_events w)).
Proof.
  unfold reconciled, reconcile.
  rewrite drain_totalCost. simpl totalCostUSD.
  rewrite drained_metadata.
  set (l := drain _ _).
  assert (Hcount : improvementCount (afterDecision getTime m0 (date_now w))
                   = improvementCount m0).
  { unfold afterDecision.
    now destruct (shouldReset getTime m0 (date_now w)). }
  destruct (shouldReset getTime m0 (date_now w) || _);
    [destruct (JS.truthy (sessionId l))|]; simpl;
    rewrite orZero_id, Hcount; auto.
Qed.

(** C6. Whatever the directive, reconciliation adds one to
    [improvementCount], sets [hasActiveSession], stamps
    [lastImprovementAt] with the current time and overwrites
    [lastImprovementCost] with the total cost that this invocation
    reported: that of its last result message, whatever the cost
    recorded before. *)
Theorem reconciliation_common_fields (w : World) (m0 : GameMetadata) :
  improvementCount (reconciled getTime toISOString w m0)
  = improvementCount m0 + 1
  /\ hasActiveSession (reconciled getTime toISOString w m0) = true
  /\ lastImprovementAt (reconciled getTime toISOString w m0)
     = Some (toISOString (date_done w))
  /\ lastImprovementCost (reconciled getTime toISOString w m0)
     = Some (reportedCost (query_events w)).
Proof.
  destruct (reconciled_count_and_cost w m0) as [Hcount Hcost].
  split; [exact Hcount|].
  assert (Hrest : hasActiveSession (reconciled getTime toISOString w m0) = true
                  /\ lastImprovementAt (reconciled getTime toISOString w m0)
                     = Some (toISOString (date_done w))).
  { unfold reconciled, reconcile. set (l := drain _ _).
    destruct (shouldReset getTime m0 (date_now w) || _);
      [destruct (JS.truthy (sessionId l))|]; simpl; auto. }
  destruct Hrest as [Hactive Hstamp].
  split; [exact Hactive|]. split; [exact Hstamp|exact Hcost].
Qed.

Lemma reconciled_contextSize (w : World) (m0 : GameMetadata) :
  contextSize (reconciled getTime toISOString w m0)
  = match cacheReadSignals (query_events w) with
    | [] => contextSize m0
    | c :: cs => Some (last cs c)
    end.
Proof.
  assert (H : contextSize (reconciled getTime toISOString w m0)
              = last (map Some (cacheReadSignals (query_events w)))
                  (contextSize m0)).
  { unfold reconciled, reconcile.
    set (l := drain _ _).
    transitivity (contextSize (metadata l)).
    - destruct (shouldReset getTime m0 (date_now w) || _);
        [destruct (JS.truthy (sessionId l))|]; reflexivity.
    - unfold l. rewrite drain_contextSize. simpl. unfold afterDecision.
      now destruct (shouldReset getTime m0 (date_now w)). }
  rewrite H. destruct (cacheReadSignals (query_events w)) as [|c cs].
  - reflexivity.
  - apply last_map_Some.
Qed.

End ReconciliationFacts.

(** ** The call, one suspension point at a time *)

Section CallFacts.

Variable getTime : string -> option Z.
Variable toISOString : Z -> string.

Lemma drain_snoc (events : list SDKMessage) (msg : SDKMessage) (l : Locals) :
  drain (events ++ [msg]) l = onMessage (drain events l) msg.
Proof. unfold drain. now rewrite fold_left_app. Qed.

Lemma visited_step (w : World) (m0 : GameMetadata) (c : Config) :
  visited getTime toISOString w m0 c ->
  visited getTime toISOString w m0 (step getTime toISOString w c).
Proof.
  intro H. destruct H as [|consumed pending Hev|l Hq|l Hq Hw|b l].
  - apply (at_event _ _ w m0 [] (query_events w)). reflexivity.
  - destruct pending as [|msg pending]; unfold step; simpl.
    + rewrite app_nil_r in Hev. subst consumed.
      destruct (query_throws w) as [e|] eqn:Hq.
      * pose proof (at_return getTime toISOString w m0) as R.
        unfold improveLoaded in R. rewrite Hq in R. apply R.
      * apply at_write. exact Hq.
    + rewrite <- drain_snoc. apply at_event.
      rewrite Hev, <- app_assoc. reflexivity.
  - unfold step; simpl.
    pose proof (at_return getTime toISOString w m0) as R.
    unfold improveLoaded in R. rewrite Hq in R.
    fold (reconciled getTime toISOString w m0) in R.
    destruct (writeFile w) as [|e clobbered] eqn:Hw.
    + apply at_check; assumption.
    + apply R.
  - unfold step; simpl.
    pose proof (at_return getTime toISOString w m0) as R.
    unfold improveLoaded in R. rewrite Hq, Hw in R.
    fold (reconciled getTime toISOString w m0) in R.
    destruct (tsc w); apply R.
  - apply at_return.
Qed.

Lemma visited_run (w : World) (m0 : GameMetadata) (n : nat) :
  visited getTime toISOString w m0
    (run getTime toISOString w n (start m0)).
Proof.
  assert (H : forall c, visited getTime toISOString w m0 c ->
              visited getTime toISOString w m0 (run getTime toISOString w n c)).
  { induction n as [|n IH]; intros c Hc; [exact Hc|].
    simpl. apply IH. now apply visited_step. }
  apply H. constructor.
Qed.

Lemma run_add (w : World) (a b : nat) (c : Config) :
  run getTime toISOString w (a + b) c
  = run getTime toISOString w b (run getTime toISOString w a c).
Proof. revert c. induction a as [|a IH]; intro c; [reflexivity|apply IH]. Qed.

Lemma run_stream (w : World) (pending : list SDKMessage) (b : bool)
    (l : Locals) (f : GameDir) :
  run getTime toISOString w (List.length pending)
    (mkConfig (Invoking pending) b l f)
  = mkConfig (Invoking []) b (drain pending l) f.
Proof.
  revert l. induction pending as [|msg pending IH]; intro l; [reflexivity|].
  change (run getTime toISOString w (List.length (msg :: pending))
            (mkConfig (Invoking (msg :: pending)) b l f))
    with (run getTime toISOString w (List.length pending)
            (mkConfig (Invoking pending) b (onMessage l msg) f)).
  apply IH.
Qed.

(** What the record says once a configuration is known to be one of
    the call. *)
Lemma visited_returned (w : World) (m0 : GameMetadata) (c : Config)
    (r : ImproveResult) :
  visited getTime toISOString w m0 c ->
  phase c = Returned r ->
  r = fst (improveLoaded getTime toISOString w m0)
  /\ file c = snd (improveLoaded getTime toISOString w m0).
Proof.
  intros H Hp. destruct H; simpl in Hp; try discriminate.
  injection Hp as <-. auto.
Qed.

(** Every call returns: [fuel w] steps are enough, and the result and
    the file are those of [improveLoaded]. *)
Lemma run_returns (w : World) (m0 : GameMetadata) :
  phase (run getTime toISOString w (fuel w) (start m0))
  = Returned (fst (improveLoaded getTime toISOString w m0))
  /\ file (run getTime toISOString w (fuel w) (start m0))
     = snd (improveLoaded getTime toISOString w m0).
Proof.
  assert (H : exists r, phase (run getTime toISOString w (fuel w) (start m0))
                        = Returned r).
  { unfold fuel.
    replace (List.length (query_events w) + 4)%nat
      with (1 + (List.length (query_events w) + 3))%nat by lia.
    rewrite run_add.
    change (run getTime toISOString w 1 (start m0))
      with (mkConfig (Invoking (query_events w))
              (shouldReset getTime m0 (date_now w))
              (set_metadata (afterDecision getTime m0 (date_now w))
                 (initLocals m0))
              (Game m0)).
    rewrite run_add, run_stream.
    cbn [run]. unfold step at 3. cbn [phase].
    destruct (query_throws w); [cbn; eauto|].
    unfold step at 2. cbn [phase].
    destruct (writeFile w); [|cbn; eauto].
    unfold step. cbn [phase]. destruct (tsc w); cbn; eauto. }
  destruct H as [r Hr].
  destruct (visited_returned w m0 _ r (visited_run w m0 (fuel w)) Hr)
    as [-> Hf].
  auto.
Qed.

(** When the check is reached, the stream has ended without throwing
    and the write has succeeded. *)
Lemma verifying_inv (w : World) (m0 : GameMetadata) (n : nat) :
  phase (run getTime toISOString w n (start m0)) = Verifying ->
  query_throws w = None /\ writeFile w = Written
  /\ file (run getTime toISOString w n (start m0))
     = Game (reconciled getTime toISOString w m0).
Proof.
  intro Hp. pose proof (visited_run w m0 n) as H.
  destruct H; simpl in Hp; try discriminate. auto.
Qed.

Lemma string_app_assoc (a b c : string) :
  ((a ++ b) ++ c = a ++ (b ++ c))%string.
Proof. induction a as [|x a IH]; simpl; [reflexivity|now rewrite IH]. Qed.

Lemma mentions_TypeScript_errors (m : GameMetadata) :
  mentions "TypeScript errors" (message (appliedWithErrors m)).
Proof.
  exists ("Improvement applied to " ++ name m ++ " but with ")%string,
    ". The game may not work correctly until these are fixed.".
  unfold appliedWithErrors. simpl. now rewrite string_app_assoc.
Qed.

(** The three ways a call can leave the file. *)
Lemma improveLoaded_file (w : World) (m0 : GameMetadata) :
  snd (improveLoaded getTime toISOString w m0) = Game m0
  \/ snd (improveLoaded getTime toISOString w m0) = BadMetadata
  \/ (query_throws w = None /\ writeFile w = Written /\
      snd (improveLoaded getTime toISOString w m0)
      = Game (reconciled getTime toISOString w m0)).
Proof.
  unfold improveLoaded, reconciled.
  destruct (query_throws w); [auto|].
  destruct (writeFile w) as [|e [|]]; simpl; auto.
  destruct (tsc w); simpl; auto.
Qed.

(** C3. When the agent invocation throws, after any number of events
    and also before the first one, [improveGame] resolves to a result
    with [success = false] and [metadata.json] is what it was before
    the call: the call never reaches the reconciliation and the
    write, and the file is the same at every point of the call. *)
Theorem invocation_failure_leaves_metadata
    (w : World) (gameId : string) (m0 : GameMetadata) (e : Thrown) :
  query_throws w = Some e ->
  improveGame getTime toISOString w gameId (Game m0)
  = (Resolved (failed e), Game m0)
  /\ success (failed e) = false
  /\ forall n,
       file (run getTime toISOString w n (start m0)) = Game m0
       /\ phase (run getTime toISOString w n (start m0)) <> Persisting
       /\ phase (run getTime toISOString w n (start m0)) <> Verifying.
Proof.
  intro Hq.
  assert (Hr : improveLoaded getTime toISOString w m0 = (failed e, Game m0))
    by (unfold improveLoaded; now rewrite Hq).
  split; [unfold improveGame; now rewrite Hr|].
  split; [reflexivity|].
  intro n. pose proof (visited_run w m0 n) as H.
  destruct H; simpl; try congruence.
  - repeat split; discriminate.
  - repeat split; discriminate.
  - rewrite Hr. simpl. repeat split; discriminate.
Qed.

(** C5. When the TypeScript check runs and fails with errors, the
    call still resolves to [success = true], with a message that
    mentions the TypeScript errors, and the reconciled record (one
    more improvement, the cost of this invocation) is in the file
    whenever the check is about to run. *)
Theorem verification_failure_is_a_warning
    (w : World) (gameId : string) (m0 : GameMetadata) (out : string) :
  (exists n, phase (run getTime toISOString w n (start m0)) = Verifying) ->
  tsc w = TscFailed out ->
  let m' := reconciled getTime toISOString w m0 in
  improveGame getTime toISOString w gameId (Game m0)
  = (Resolved (appliedWithErrors m'), Game m')
  /\ success (appliedWithErrors m') = true
  /\ mentions "TypeScript errors" (message (appliedWithErrors m'))
  /\ (forall n, phase (run getTime toISOString w n (start m0)) = Verifying ->
                file (run getTime toISOString w n (start m0)) = Game m')
  /\ improvementCount m' = improvementCount m0 + 1
  /\ lastImprovementCost m' = Some (reportedCost (query_events w)).
Proof.
  intros [n Hn] Htsc m'.
  destruct (verifying_inv w m0 n Hn) as (Hq & Hw & _).
  assert (Hr : improveLoaded getTime toISOString w m0
               = (appliedWithErrors m', Game m'))
    by (unfold improveLoaded; now rewrite Hq, Hw, Htsc).
  split; [unfold improveGame; now rewrite Hr|].
  split; [reflexivity|].
  split; [apply mentions_TypeScript_errors|].
  split; [intros k Hk; apply (verifying_inv w m0 k Hk)|].
  destruct (reconciled_count_and_cost getTime toISOString w m0)
    as (Hc & Hcost).
  auto.
Qed.

(** C7, as the code has it. A FRESH decision clears the session
    token and sets the session count to 0 in the record held in
    memory before the invocation is attempted, and they stay so
    while the stream is read; a RESUME decision leaves that record
    as loaded when the invocation is attempted, and the stream only
    updates its [contextSize].  Nothing of this is written before
    the invocation has completed: until the write that follows it,
    [metadata.json] holds the record as loaded, whatever the
    decision. *)
Theorem session_cleared_in_memory_only (w : World) (m0 : GameMetadata) :
  run getTime toISOString w 1 (start m0)
  = mkConfig (Invoking (query_events w)) (shouldReset getTime m0 (date_now w))
      (initLocals (afterDecision getTime m0 (date_now w))) (Game m0)
  /\ (shouldReset getTime m0 (date_now w) = true ->
      claudeSessionId (afterDecision getTime m0 (date_now w)) = None
      /\ sessionImprovementCount (afterDecision getTime m0 (date_now w))
         = Some 0)
  /\ (shouldReset getTime m0 (date_now w) = false ->
      afterDecision getTime m0 (date_now w) = m0)
  /\ (forall n pending,
        phase (run getTime toISOString w n (start m0)) = Invoking pending ->
        let m := metadata (vars (run getTime toISOString w n (start m0))) in
        file (run getTime toISOString w n (start m0)) = Game m0
        /\ (shouldReset getTime m0 (date_now w) = true ->
            claudeSessionId m = None
            /\ sessionImprovementCount m = Some 0)
        /\ (shouldReset getTime m0 (date_now w) = false ->
            m = set_contextSize (contextSize m) m0))
  /\ (forall n,
        file (run getTime toISOString w n (start m0)) = Game m0
        \/ phase (run getTime toISOString w n (start m0)) = Verifying
        \/ exists r,
             phase (run getTime toISOString w n (start m0)) = Returned r).
Proof.
  split; [reflexivity|].
  split; [intro Hr; unfold afterDecision; rewrite Hr; split; reflexivity|].
  split; [intro Hr; unfold afterDecision; now rewrite Hr|].
  split.
  - intros n pending Hp m. pose proof (visited_run w m0 n) as H.
    subst m. destruct H; simpl in Hp; try discriminate; simpl.
    split; [reflexivity|].
    rewrite drain_metadata. simpl. unfold afterDecision.
    split; intro Hr; rewrite Hr; simpl; auto.
  - intro n. pose proof (visited_run w m0 n) as H.
    destruct H; simpl; eauto.
Qed.

(** ** Histories *)

(** A call whose stream signals no cache read leaves [contextSize]
    as it finds it. *)
Lemma improveGame_keeps_context (w : World) (gameId : string) (c : option Z)
    (d : GameDir) :
  cacheReadSignals (query_events w) = [] ->
  (forall m, d = Game m -> contextSize m = c) ->
  forall m, snd (improveGame getTime toISOString w gameId d) = Game m ->
            contextSize m = c.
Proof.
  intros Hsig Hd m Hm. destruct d as [| |m0]; simpl in Hm; try discriminate.
  destruct (improveLoaded_file w m0) as [H|[H|(_ & _ & H)]];
    rewrite H in Hm; try discriminate; injection Hm as <-.
  - now apply Hd.
  - rewrite reconciled_contextSize, Hsig. now apply Hd.
Qed.

(** C9. The reconciled [contextSize] is the cache-read size of the
    last progress event of the invocation that carried one (a size
    of 0 is no signal); when no event carried one it keeps its
    previous value, and it goes on keeping it over any sequence of
    improvement requests whose streams carry none: it is never
    reset to zero. *)
Theorem context_size_follows_last_cache_read :
  (forall w m0,
      contextSize (reconciled getTime toISOString w m0)
      = match cacheReadSignals (query_events w) with
        | [] => contextSize m0
        | c :: cs => Some (last cs c)
        end)
  /\ (forall gameId ws m0 m,
        (forall w, In w ws -> cacheReadSignals (query_events w) = []) ->
        improveMany getTime toISOString gameId ws (Game m0) = Game m ->
        contextSize m = contextSize m0).
Proof.
  split; [apply reconciled_contextSize|].
  intros gameId ws m0.
  assert (H : forall d,
             (forall w, In w ws -> cacheReadSignals (query_events w) = []) ->
             (forall m, d = Game m -> contextSize m = contextSize m0) ->
             forall m, improveMany getTime toISOString gameId ws d = Game m ->
                       contextSize m = contextSize m0).
  { induction ws as [|w ws IH]; intros d Hws Hd m Hm.
    - now apply Hd.
    - apply (IH (snd (improveGame getTime toISOString w gameId d))).
      + intros w' Hin. apply Hws. now right.
      + apply improveGame_keeps_context; [apply Hws; now left|exact Hd].
      + exact Hm. }
  intros m Hws Hm. apply (H (Game m0) Hws); [|exact Hm].
  intros m1 [= <-]. reflexivity.
Qed.

(** A call keeps the session count that goes with an absent token
    within absent-or-one. *)
Lemma improveGame_tokenless_count (w : World) (gameId : string) (d : GameDir) :
  (forall m, d = Game m -> sessionToken m = None ->
             sessionImprovementCount m = None
             \/ sessionImprovementCount m = Some 1) ->
  forall m, snd (improveGame getTime toISOString w gameId d) = Game m ->
            sessionToken m = None ->
            sessionImprovementCount m = None
            \/ sessionImprovementCount m = Some 1.
Proof.
  intros Hd m Hm Htok. destruct d as [| |m0]; simpl in Hm; try discriminate.
  destruct (improveLoaded_file w m0) as [H|[H|(_ & _ & H)]];
    rewrite H in Hm; try discriminate; injection Hm as <-.
  - now apply Hd.
  - destruct (shouldReset getTime m0 (date_now w)) eqn:Hr.
    + right. apply (reconciled_fresh getTime toISOString w m0 Hr).
    + exfalso.
      destruct (reconciled_resume getTime toISOString w m0 Hr) as [_ Hsame].
      apply sessionToken_None in Htok. rewrite Hsame in Htok.
      rewrite (shouldReset_false_truthy getTime _ _ Hr) in Htok.
      discriminate.
Qed.

(** C4, as the code has it. In every record that scaffolding and
    improvement requests can leave in [metadata.json], an absent
    session token comes with a session count that is either absent
    (it reads as 0: no improvement has been applied yet) or 1 (the
    last improvement started a fresh session and the invocation
    issued no token). *)
Theorem tokenless_session_count_at_most_one (m : GameMetadata) :
  reachable getTime toISOString (Game m) ->
  sessionToken m = None ->
  sessionImprovementCount m = None \/ sessionImprovementCount m = Some 1.
Proof.
  intro H. remember (Game m) as d eqn:Ed. revert m Ed.
  induction H as [gameId gameName prompt now sid|w gameId d Hd IH];
    intros m Ed Htok.
  - injection Ed as <-. left. reflexivity.
  - apply (improveGame_tokenless_count w gameId d); auto.
Qed.

End CallFacts.

(** ** The scenarios of the specification, evaluated *)

Import Samples DecimalClock.

(** Scenario B: everything under its limit, the session is resumed. *)
Lemma scenario_B_resumes :
  sessionToken warm = Some "abc"
  /\ withinCacheWindow getTime warm warmNow
  /\ shouldReset getTime warm warmNow = false
  /\ resumeOption getTime warm warmNow = Some "abc".
Proof.
  assert (Hw : withinCacheWindow getTime warm warmNow).
  { exists "600000", 600000. repeat split; try reflexivity.
    vm_compute. discriminate. }
  split; [reflexivity|]. split; [exact Hw|].
  apply (proj1 (proj2 (decision_fresh_iff_any_condition getTime warm warmNow))
           "abc").
  - reflexivity.
  - exact Hw.
  - intros n [= <-]. reflexivity.
  - intros c [= <-]. vm_compute. discriminate.
  - intros q [= <-]. vm_compute. discriminate.
Defined.

(** A record without the three optional counters is decided on its
    token and its timestamp alone. *)
Lemma bare_record_resumes :
  contextSize bare = None
  /\ sessionImprovementCount bare = None
  /\ lastImprovementCost bare = None
  /\ shouldReset getTime bare warmNow = false.
Proof.
  split; [reflexivity|]. split; [reflexivity|]. split; [reflexivity|].
  apply not_true_is_false. intro H.
  apply (proj1 (proj2 (proj2 (proj2
           (absent_fields_count_as_zero getTime bare warmNow))))
           eq_refl eq_refl eq_refl) in H.
  destruct H as [H|[H|(s & t & Hs & Ht & Hlt)]]; try discriminate.
  injection Hs as <-. vm_compute in Ht. injection Ht as <-.
  vm_compute in Hlt. discriminate.
Defined.

(** A fresh start on [worn] adopts the token issued by the stream. *)
Lemma fresh_start_adopts_token :
  shouldReset getTime worn warmNow = true
  /\ sessionImprovementCount (reconciled getTime toISOString chatty worn)
     = Some 1
  /\ claudeSessionId (reconciled getTime toISOString chatty worn)
     = Some "s-1".
Proof.
  split; [reflexivity|].
  destruct (proj1 (reconciliation_session_tracking getTime toISOString
                     chatty worn) eq_refl) as (Hc & Ht & _).
  split; [exact Hc|exact Ht].
Defined.

(** Scenario D: the stream throws before its first event. *)
Lemma scenario_D_nothing_written :
  query_throws aborted = Some (JsError "aborted")
  /\ improveGame getTime toISOString aborted "game_1" (Game warm)
     = (Resolved (mkResult false "Failed to improve game: aborted"),
        Game warm).
Proof.
  split; [reflexivity|].
  exact (proj1 (invocation_failure_leaves_metadata getTime toISOString
                  aborted "game_1" warm (JsError "aborted") eq_refl)).
Defined.

(** Scenario E: a fresh start that costs 0.30 and then fails the
    TypeScript check. *)
Lemma scenario_E_warning :
  phase (run getTime toISOString chattyBroken 8 (start worn)) = Verifying
  /\ success
       (appliedWithErrors (reconciled getTime toISOString chattyBroken worn))
     = true
  /\ improvementCount (reconciled getTime toISOString chattyBroken worn)
     = improvementCount worn + 1
  /\ lastImprovementCost (reconciled getTime toISOString chattyBroken worn)
     = Some 0.30%Q.
Proof.
  split; [reflexivity|].
  destruct (verification_failure_is_a_warning getTime toISOString
              chattyBroken "game_1" worn _ (ex_intro _ 8%nat eq_refl) eq_refl)
    as (_ & Hs & _ & _ & Hc & Hcost).
  split; [exact Hs|]. split; [exact Hc|exact Hcost].
Defined.

(** On [worn] the token is kept in the file while the stream is read,
    and cleared in memory. *)
Lemma fresh_start_in_memory :
  phase (run getTime toISOString chatty 3 (start worn))
  = Invoking (skipn 2 talkative)
  /\ file (run getTime toISOString chatty 3 (start worn)) = Game worn
  /\ claudeSessionId
       (metadata (vars (run getTime toISOString chatty 3 (start worn))))
     = None.
Proof.
  split; [reflexivity|].
  destruct (proj1 (proj2 (proj2 (proj2
              (session_cleared_in_memory_only getTime toISOString
                 chatty worn)))) 3%nat _ eq_refl)
    as (Hf & Hfresh & _).
  split; [exact Hf|]. exact (proj1 (Hfresh eq_refl)).
Defined.

(** Two requests without a cache read, one of them failing: the
    context size of [warm] is still there. *)
Lemma stale_context_persists :
  (forall w, In w [quiet; quietThrows] ->
             cacheReadSignals (query_events w) = [])
  /\ exists m,
       improveMany getTime toISOString "game_1" [quiet; quietThrows] (Game warm)
       = Game m
       /\ contextSize m = Some 5000.
Proof.
  assert (H : forall w, In w [quiet; quietThrows] ->
                        cacheReadSignals (query_events w) = []).
  { intros w [<-|[<-|[]]]; reflexivity. }
  split; [exact H|].
  eexists. split; [reflexivity|].
  exact (proj2 (context_size_follows_last_cache_read getTime toISOString)
           "game_1" _ warm _ H eq_refl).
Defined.

Lemma afterSilent_reachable : reachable getTime toISOString (Game afterSilent).
Proof.
  exact (reach_improve getTime toISOString quiet "game_1" (Game scaffolded)
           (reach_scaffold getTime toISOString "game_1" "Maze"
              "make a maze game" 1000 (Some "gen-1"))).
Defined.

(** After a fresh start whose stream issued no token, the token is
    absent and the session count is 1. *)
Lemma tokenless_after_silent_start :
  reachable getTime toISOString (Game afterSilent)
  /\ sessionToken afterSilent = None
  /\ (sessionImprovementCount afterSilent = None
      \/ sessionImprovementCount afterSilent = Some 1).
Proof.
  split; [exact afterSilent_reachable|]. split; [reflexivity|].
  exact (tokenless_session_count_at_most_one getTime toISOString afterSilent
           afterSilent_reachable eq_refl).
Defined.

(** C4 as stated fails: [afterSilent] is reachable, has no token and
    a session count of 1. *)
Lemma tokenless_count_is_not_zero :
  ~ (forall m,
        reachable getTime toISOString (Game m) ->
        claudeSessionId m = None ->
        JS.or0 (sessionImprovementCount m) = 0).
Proof.
  intro H. specialize (H afterSilent afterSilent_reachable eq_refl).
  vm_compute in H. discriminate.
Qed.

(** C7 as stated fails.  When the decision on [worn] is FRESH, a read
    of [metadata.json] made while the invocation is attempted still
    finds the token "abc" and the count 5; and when the decision on
    [warm] is RESUME, the record in memory has a new [contextSize]
    before the invocation has completed. *)
Lemma stale_session_visible_during_invocation :
  ~ (forall w m0 n pending m,
        shouldReset getTime m0 (date_now w) = true ->
        phase (run getTime toISOString w n (start m0)) = Invoking pending ->
        file (run getTime toISOString w n (start m0)) = Game m ->
        sessionToken m = None /\ sessionImprovementCount m = Some 0)
  /\ ~ (forall w m0 n pending,
          shouldReset getTime m0 (date_now w) = false ->
          phase (run getTime toISOString w n (start m0)) = Invoking pending ->
          metadata (vars (run getTime toISOString w n (start m0))) = m0).
Proof.
  split; intro H.
  - specialize (H chatty worn 1%nat talkative worn
                  eq_refl eq_refl eq_refl).
    destruct H as [H _]. vm_compute in H. discriminate.
  - specialize (H chatty warm 3%nat (skipn 2 talkative) eq_refl eq_refl).
    apply (f_equal contextSize) in H. vm_compute in H. discriminate.
Qed.

(** C8 at a record without a token, improved three minutes ago: the
    decision is FRESH by the first condition only (with a token it
    would be RESUME), and no reason is printed; had it been improved
    an hour earlier, the reason printed would be that of the third
    condition.  With neither token nor timestamp the reason is "First
    improvement or no previous timestamp". *)
Lemma no_reason_for_missing_token :
  sessionToken tokenless = None
  /\ shouldReset getTime (set_claudeSessionId (Some "abc") tokenless) warmNow
     = false
  /\ shouldReset getTime tokenless warmNow = true
  /\ reportedReason getTime tokenless warmNow = None
  /\ (exists t, reportedReason getTime tokenless (warmNow + 3600000)
                = Some (CacheExpired t))
  /\ option_map reasonText (reportedReason getTime blank warmNow)
     = Some "First improvement or no previous timestamp".
Proof.
  repeat split; try reflexivity. eexists. reflexivity.
Qed.


(** * Beyond the session policy: histories of improvement requests *)

Section HistoryFacts.

Variable getTime : string -> option Z.
Variable toISOString : Z -> string.

Lemma improveLoaded_completes (w : World) (m0 : GameMetadata) :
  completes w = true ->
  snd (improveLoaded getTime toISOString w m0)
  = Game (reconciled getTime toISOString w m0).
Proof.
  unfold completes, improveLoaded, reconciled.
  destruct (query_throws w); [discriminate|].
  destruct (writeFile w); [|discriminate].
  intros _. now destruct (tsc w).
Qed.

Lemma improveLoaded_incomplete (w : World) (m0 : GameMetadata) :
  completes w = false ->
  snd (improveLoaded getTime toISOString w m0) = Game m0
  \/ snd (improveLoaded getTime toISOString w m0) = BadMetadata.
Proof.
  unfold completes, improveLoaded.
  destruct (query_throws w); [auto|].
  destruct (writeFile w) as [|e [|]]; [discriminate| |]; simpl; auto.
Qed.

(** Induction over the records that can be found in [metadata.json]:
    the scaffolded ones, and the reconciled record of a call on a
    record that could be found there. *)
Lemma reachable_record_ind (P : GameMetadata -> Prop) :
  (forall gameId gameName prompt now sid,
      P (scaffoldMetadata toISOString gameId gameName prompt now sid)) ->
  (forall w m0, P m0 -> P (reconciled getTime toISOString w m0)) ->
  forall m, reachable getTime toISOString (Game m) -> P m.
Proof.
  intros Hbase Hstep m H. remember (Game m) as d eqn:Ed. revert m Ed.
  induction H as [gameId gameName prompt now sid|w gameId d Hd IH];
    intros m Ed.
  - injection Ed as <-. apply Hbase.
  - destruct d as [| |m0]; simpl in Ed; try discriminate.
    destruct (improveLoaded_file getTime toISOString w m0)
      as [H|[H|(_ & _ & H)]];
      rewrite H in Ed; try discriminate; injection Ed as <-.
    + now apply IH.
    + apply Hstep. now apply IH.
Qed.

Lemma shouldReset_false_count (m : GameMetadata) (now : Z) :
  shouldReset getTime m now = false ->
  JS.or0 (sessionImprovementCount m) < 5.
Proof.
  intro H. destruct (Z.ltb_spec (JS.or0 (sessionImprovementCount m)) 5) as [|Hge];
    [assumption|].
  exfalso. assert (Ht : shouldReset getTime m now = true).
  { apply shouldReset_iff. right; right; right; left. apply or0_ge5.
    now apply Z.leb_le. }
  congruence.
Qed.

(** What holds of every record that can be found in the file. *)
Lemma reachable_counts (m : GameMetadata) :
  reachable getTime toISOString (Game m) ->
  0 <= improvementCount m
  /\ match sessionImprovementCount m with
     | None => improvementCount m = 0 /\ lastImprovementAt m = None
     | Some n =>
         1 <= n <= 5 /\ n <= improvementCount m
         /\ lastImprovementAt m <> None
         /\ hasActiveSession m = true
         /\ lastImprovementCost m <> None
     end.
Proof.
  revert m. apply reachable_record_ind.
  - intros. simpl. split; [lia|auto].
  - intros w m0 [Hic Hm0].
    destruct (reconciled_count_and_cost getTime toISOString w m0)
      as [Hcount Hcost].
    assert (Hrest : lastImprovementAt (reconciled getTime toISOString w m0)
                    <> None
                    /\ hasActiveSession (reconciled getTime toISOString w m0)
                       = true).
    { unfold reconciled, reconcile. set (l := drain _ _).
      destruct (shouldReset getTime m0 (date_now w) || _);
        [destruct (JS.truthy (sessionId l))|]; simpl; split;
        (discriminate || reflexivity). }
    destruct Hrest as [Hstamp Hactive].
    rewrite Hcount. split; [lia|].
    destruct (shouldReset getTime m0 (date_now w)) eqn:Hr.
    + destruct (reconciled_fresh getTime toISOString w m0 Hr) as [-> _].
      rewrite Hcost. repeat split; (lia || assumption || discriminate).
    + destruct (reconciled_resume getTime toISOString w m0 Hr) as [-> _].
      pose proof (shouldReset_false_count _ _ Hr) as Hlt.
      rewrite Hcost.
      destruct (sessionImprovementCount m0) as [n|]; simpl in *.
      * rewrite orZero_id in *. destruct Hm0 as (Hn & Hle & _).
        repeat split; (lia || assumption || discriminate).
      * repeat split; (lia || assumption || discriminate).
Qed.

(** X1. A session is never credited with more than five improvements,
    nor with more improvements than the game has had: in every record
    that scaffolding and improvement requests can leave in the file,
    [sessionImprovementCount], once present, lies between 1 and 5 and
    does not exceed [improvementCount], which is never negative. *)
Theorem session_count_within_bounds (m : GameMetadata) (n : Z) :
  reachable getTime toISOString (Game m) ->
  sessionImprovementCount m = Some n ->
  1 <= n <= 5 /\ n <= improvementCount m /\ 0 <= improvementCount m.
Proof.
  intros H Hn. destruct (reachable_counts m H) as [Hic Hm].
  rewrite Hn in Hm. destruct Hm as (Hb & Hle & _). auto.
Qed.

(** X2. The file tells whether the game has ever been improved: in
    every record that can be found there, [lastImprovementAt] is
    absent exactly when [improvementCount] is 0, and exactly when
    [sessionImprovementCount] is absent; once the game has been
    improved, [hasActiveSession] is true and a cost is recorded. *)
Theorem never_improved_iff_no_timestamp (m : GameMetadata) :
  reachable getTime toISOString (Game m) ->
  (lastImprovementAt m = None <-> improvementCount m = 0)
  /\ (lastImprovementAt m = None <-> sessionImprovementCount m = None)
  /\ (0 < improvementCount m ->
      hasActiveSession m = true /\ lastImprovementCost m <> None).
Proof.
  intro H. destruct (reachable_counts m H) as [Hic Hm].
  destruct (sessionImprovementCount m) as [n|].
  - destruct Hm as (Hb & Hle & Hstamp & Hactive & Hcost).
    split; [split; [contradiction|lia]|].
    split; [split; [contradiction|discriminate]|]. auto.
  - destruct Hm as [H0 Hstamp].
    split; [tauto|]. split; [tauto|]. lia.
Qed.

Lemma improveMany_cons (gameId : string) (w : World) (ws : list World)
    (d : GameDir) :
  improveMany getTime toISOString gameId (w :: ws) d
  = improveMany getTime toISOString gameId ws
      (snd (improveGame getTime toISOString w gameId d)).
Proof. reflexivity. Qed.

(** A game that is missing, or whose metadata cannot be read, is not
    brought back by improvement requests. *)
Lemma improveMany_unreadable (gameId : string) (ws : list World) (d : GameDir) :
  (forall m, d <> Game m) ->
  improveMany getTime toISOString gameId ws d = d.
Proof.
  intro Hd. induction ws as [|w ws IH]; [reflexivity|].
  rewrite improveMany_cons.
  destruct d as [| |m]; simpl; try exact IH. now destruct (Hd m).
Qed.

(** The first request of a history either completes and hands the
    reconciled record to the rest, or leaves the record to it. *)
Lemma improveMany_first (gameId : string) (w : World) (ws : list World)
    (m0 m : GameMetadata) :
  improveMany getTime toISOString gameId (w :: ws) (Game m0) = Game m ->
  (completes w = true
   /\ improveMany getTime toISOString gameId ws
        (Game (reconciled getTime toISOString w m0)) = Game m)
  \/ (completes w = false
      /\ improveMany getTime toISOString gameId ws (Game m0) = Game m).
Proof.
  rewrite improveMany_cons. simpl. intro H.
  destruct (completes w) eqn:Hc.
  - left. split; [reflexivity|].
    now rewrite (improveLoaded_completes w m0 Hc) in H.
  - right. split; [reflexivity|].
    destruct (improveLoaded_incomplete w m0 Hc) as [E|E]; rewrite E in H.
    + exact H.
    + rewrite improveMany_unreadable in H by discriminate. discriminate.
Qed.

(** X3. [improvementCount] counts the completed improvements: after
    any sequence of requests on a game, it has grown by the number of
    requests whose stream ended without throwing and whose metadata
    was written; failed requests do not count. *)
Theorem improvement_count_counts_completed
    (gameId : string) (ws : list World) (m0 m : GameMetadata) :
  improveMany getTime toISOString gameId ws (Game m0) = Game m ->
  improvementCount m
  = improvementCount m0 + Z.of_nat (List.length (filter completes ws)).
Proof.
  revert m0. induction ws as [|w ws IH]; intros m0 H.
  - injection H as <-. simpl. lia.
  - destruct (improveMany_first gameId w ws m0 m H) as [[Hc Hm]|[Hc Hm]];
      simpl filter; rewrite Hc.
    + rewrite (IH _ Hm).
      destruct (reconciled_count_and_cost getTime toISOString w m0) as [-> _].
      simpl List.length. lia.
    + exact (IH _ Hm).
Qed.

Lemma reconciled_identity (w : World) (m0 : GameMetadata) :
  id (reconciled getTime toISOString w m0) = id m0
  /\ name (reconciled getTime toISOString w m0) = name m0
  /\ description (reconciled getTime toISOString w m0) = description m0
  /\ icon (reconciled getTime toISOString w m0) = icon m0
  /\ createdAt (reconciled getTime toISOString w m0) = createdAt m0.
Proof.
  unfold reconciled, reconcile. rewrite drained_metadata.
  set (l := drain _ _). unfold afterDecision.
  destruct (shouldReset getTime m0 (date_now w));
    simpl; [destruct (JS.truthy (sessionId l))|]; simpl; auto;
    destruct (negb (JS.truthy (claudeSessionId m0)));
    [destruct (JS.truthy (sessionId l))|]; simpl; auto.
Qed.

(** X4. Improvement requests never touch what identifies the game:
    after any sequence of requests, [id], [name], [description],
    [icon] and [createdAt] in the file are those it started with. *)
Theorem identity_fields_preserved
    (gameId : string) (ws : list World) (m0 m : GameMetadata) :
  improveMany getTime toISOString gameId ws (Game m0) = Game m ->
  id m = id m0 /\ name m = name m0 /\ description m = description m0
  /\ icon m = icon m0 /\ createdAt m = createdAt m0.
Proof.
  revert m0. induction ws as [|w ws IH]; intros m0 H.
  - injection H as <-. auto.
  - destruct (improveMany_first gameId w ws m0 m H) as [[_ Hm]|[_ Hm]].
    + destruct (IH _ Hm) as (-> & -> & -> & -> & ->).
      apply reconciled_identity.
    + exact (IH _ Hm).
Qed.

(** X5. An improvement that was expensive, or that left a large
    context, or that started fresh without being issued a token,
    makes the next decision FRESH, whenever the next request comes. *)
Theorem costly_improvement_forces_fresh
    (w : World) (m0 : GameMetadata) (next : Z) :
  (0.20 < reportedCost (query_events w))%Q
  \/ (exists c cs, cacheReadSignals (query_events w) = c :: cs
                   /\ 30000 < last cs c)
  \/ (shouldReset getTime m0 (date_now w) = true
      /\ issuedSessionIds (query_events w) = []) ->
  shouldReset getTime (reconciled getTime toISOString w m0) next = true.
Proof.
  intro H. apply shouldReset_iff.
  destruct H as [Hcost|[(c & cs & Hsig & Hbig)|[Hr Hnone]]].
  - do 5 right. eexists. split; [|exact Hcost].
    apply (reconciled_count_and_cost getTime toISOString w m0).
  - do 4 right. left. exists (last cs c). split; [|exact Hbig].
    now rewrite reconciled_contextSize, Hsig.
  - left. apply sessionToken_None.
    destruct (reconciled_fresh getTime toISOString w m0 Hr) as [_ ->].
    unfold newSessionToken. now rewrite Hnone.
Qed.

(** X6. An improvement that was cheap and left a small context is
    resumed by a request that comes within five minutes, as long as
    the session has had fewer than five improvements: the next
    decision is RESUME, with the token that the improvement left in
    the file.  The clock is assumed to read back the timestamp it
    printed. *)
Theorem cheap_recent_improvement_is_resumed
    (w : World) (m0 : GameMetadata) (next : Z) (tok : string) :
  getTime (toISOString (date_done w)) = Some (date_done w) ->
  toISOString (date_done w) <> EmptyString ->
  claudeSessionId (reconciled getTime toISOString w m0) = Some tok ->
  (shouldReset getTime m0 (date_now w) = false ->
   JS.or0 (sessionImprovementCount m0) < 4) ->
  (reportedCost (query_events w) <= 0.20)%Q ->
  (forall c, contextSize (reconciled getTime toISOString w m0) = Some c ->
             c <= 30000) ->
  next - date_done w <= fiveMinutes ->
  shouldReset getTime (reconciled getTime toISOString w m0) next = false
  /\ resumeOption getTime (reconciled getTime toISOString w m0) next
     = Some tok.
Proof.
  intros Hclock Hprint Htok Hcount Hcost Hctx Hnext.
  set (m := reconciled getTime toISOString w m0) in *.
  assert (Htruthy : JS.truthy (claudeSessionId m) = true).
  { subst m. destruct (shouldReset getTime m0 (date_now w)) eqn:Hr.
    - destruct (reconciled_fresh getTime toISOString w m0 Hr) as [_ E].
      rewrite E in *. apply issued_truthy. congruence.
    - destruct (reconciled_resume getTime toISOString w m0 Hr) as [_ E].
      rewrite E. exact (shouldReset_false_truthy getTime _ _ Hr). }
  assert (Hstamp : lastImprovementStamp m = Some (toISOString (date_done w))).
  { unfold lastImprovementStamp.
    assert (E : lastImprovementAt m = Some (toISOString (date_done w))).
    { subst m. unfold reconciled, reconcile. set (l := drain _ _).
      destruct (shouldReset getTime m0 (date_now w) || _);
        [destruct (JS.truthy (sessionId l))|]; reflexivity. }
    rewrite E. simpl.
    destruct (String.eqb_spec (toISOString (date_done w)) EmptyString);
      [contradiction|reflexivity]. }
  assert (Hno : shouldReset getTime m next = false).
  { apply not_true_is_false. rewrite shouldReset_iff.
    intros [H|[H|[(s' & t' & Hs' & Ht' & Hlt)
                 |[(n & En & Hn)|[(c & Ec & Hc)|(q & Eq & Hq)]]]]].
    - apply sessionToken_None in H. congruence.
    - congruence.
    - rewrite Hstamp in Hs'. injection Hs' as <-.
      rewrite Hclock in Ht'. injection Ht' as <-. lia.
    - subst m. destruct (shouldReset getTime m0 (date_now w)) eqn:Hr.
      + destruct (reconciled_fresh getTime toISOString w m0 Hr) as [E _].
        rewrite E in En. injection En as <-. lia.
      + destruct (reconciled_resume getTime toISOString w m0 Hr) as [E _].
        rewrite E in En. injection En as <-. specialize (Hcount eq_refl). lia.
    - specialize (Hctx _ Ec). lia.
    - destruct (reconciled_count_and_cost getTime toISOString w m0)
        as [_ E].
      fold m in E. rewrite E in Eq. injection Eq as <-.
      exact (Qlt_not_le _ _ Hq Hcost). }
  split; [exact Hno|].
  unfold resumeOption, afterDecision. rewrite Hno. simpl.
  now rewrite Htruthy.
Qed.

(** X7. A context size above 30000 stays in the file until a stream
    signals a cache read: after any sequence of requests whose
    streams signal none, the file still holds it and the next
    decision is FRESH, whenever it is taken. *)
Theorem large_context_keeps_forcing_fresh
    (gameId : string) (ws : list World) (m0 m : GameMetadata) (c next : Z) :
  contextSize m0 = Some c ->
  30000 < c ->
  (forall w, In w ws -> cacheReadSignals (query_events w) = []) ->
  improveMany getTime toISOString gameId ws (Game m0) = Game m ->
  contextSize m = Some c /\ shouldReset getTime m next = true.
Proof.
  intros Hc Hbig Hws Hm.
  assert (Hkeep : contextSize m = Some c).
  { revert m0 Hc Hm. induction ws as [|w ws IH]; intros m0 Hc Hm.
    - injection Hm as <-. exact Hc.
    - assert (Hrest : forall w', In w' ws ->
                                 cacheReadSignals (query_events w') = [])
        by (intros w' Hin; apply Hws; now right).
      destruct (improveMany_first gameId w ws m0 m Hm) as [[_ H]|[_ H]].
      + apply (IH Hrest (reconciled getTime toISOString w m0)); [|exact H].
        rewrite reconciled_contextSize, (Hws w) by now left. exact Hc.
      + exact (IH Hrest _ Hc H). }
  split; [exact Hkeep|].
  apply shouldReset_iff. do 4 right. left. exists c. auto.
Qed.

(** X8. The first improvement of a scaffolded game starts a fresh
    session, whatever session id the generation stored and whenever
    the request comes: no token is handed to the agent, the reason
    printed is the first-improvement one, and the completed
    improvement leaves the token issued by its own stream (or none),
    a session count of 1 and an improvement count of 1. *)
Theorem first_improvement_starts_fresh
    (gameId gameName prompt : string) (created : Z) (sid : option string)
    (w : World) :
  let s := scaffoldMetadata toISOString gameId gameName prompt created sid in
  shouldReset getTime s (date_now w) = true
  /\ resumeOption getTime s (date_now w) = None
  /\ reportedReason getTime s (date_now w) = Some FirstImprovement
  /\ claudeSessionId (reconciled getTime toISOString w s)
     = newSessionToken (query_events w)
  /\ sessionImprovementCount (reconciled getTime toISOString w s) = Some 1
  /\ improvementCount (reconciled getTime toISOString w s) = 1.
Proof.
  intro s.
  assert (Hr : shouldReset getTime s (date_now w) = true).
  { apply shouldReset_iff. right. left. reflexivity. }
  split; [exact Hr|].
  split; [unfold resumeOption; now rewrite Hr|].
  split; [unfold reportedReason; now rewrite Hr|].
  destruct (reconciled_fresh getTime toISOString w s Hr) as [Hc Ht].
  split; [exact Ht|]. split; [exact Hc|].
  apply (reconciled_count_and_cost getTime toISOString w s).
Qed.

End HistoryFacts.

(** * Token accounting during the stream *)

Lemma or0_falsy (x : option Z) : JS.truthyZ x = false -> JS.or0 x = 0.
Proof.
  destruct x as [z|]; simpl; [|reflexivity].
  rewrite negb_false_iff, Z.eqb_eq. intros ->. reflexivity.
Qed.

Lemma option_map_add (o : option Z) (x y : Z) :
  option_map (fun a => a + y) (option_map (fun a => a + x) o)
  = option_map (fun a => a + (x + y)) o.
Proof. destruct o; simpl; [f_equal; lia|reflexivity]. Qed.

(** The totals after one assistant message with a usage block. *)
Lemma trackUsage_totals (u : TokenUsage) (l : Locals) :
  let t := totalTokenUsage l in
  let t' := totalTokenUsage (trackUsage u l) in
  stepCount (trackUsage u l) = stepCount l + 1
  /\ input_tokens t' = input_tokens t + input_tokens u
  /\ output_tokens t' = output_tokens t + output_tokens u
  /\ cache_creation_input_tokens t'
     = option_map (fun a => a + JS.or0 (cache_creation_input_tokens u))
         (cache_creation_input_tokens t)
  /\ cache_read_input_tokens t'
     = option_map (fun a => a + JS.or0 (cache_read_input_tokens u))
         (cache_read_input_tokens t).
Proof.
  unfold trackUsage; simpl. rewrite !orZero_id.
  split; [reflexivity|]. split; [reflexivity|]. split; [reflexivity|].
  split.
  - destruct (JS.truthyZ (cache_creation_input_tokens u)) eqn:E;
      [reflexivity|].
    rewrite (or0_falsy _ E).
    destruct (cache_creation_input_tokens (totalTokenUsage l)); simpl;
      [f_equal; lia|reflexivity].
  - destruct (JS.truthyZ (cache_read_input_tokens u)) eqn:E; [reflexivity|].
    rewrite (or0_falsy _ E).
    destruct (cache_read_input_tokens (totalTokenUsage l)); simpl;
      [f_equal; lia|reflexivity].
Qed.

(** Apart from assistant messages with a usage block, no message
    changes the step count or the totals. *)
Lemma onMessage_totals (l : Locals) (msg : SDKMessage) :
  stepCount (onMessage l msg)
  = match msg with
    | MsgAssistant (Some u) _ => stepCount (trackUsage u l)
    | _ => stepCount l
    end
  /\ totalTokenUsage (onMessage l msg)
     = match msg with
       | MsgAssistant (Some u) _ => totalTokenUsage (trackUsage u l)
       | _ => totalTokenUsage l
       end.
Proof.
  unfold onMessage.
  destruct msg as [[u|] sid|st c [u'|] sid|st sid|sid]; simpl;
    destruct (JS.truthy sid); split; reflexivity.
Qed.

Lemma drain_totals (events : list SDKMessage) (l : Locals) :
  let steps := usageSteps events in
  let t := totalTokenUsage l in
  let t' := totalTokenUsage (drain events l) in
  stepCount (drain events l) = stepCount l + Z.of_nat (List.length steps)
  /\ input_tokens t' = input_tokens t + sumZ (map input_tokens steps)
  /\ output_tokens t' = output_tokens t + sumZ (map output_tokens steps)
  /\ cache_creation_input_tokens t'
     = option_map
         (fun a => a + sumZ (map (fun u => JS.or0 (cache_creation_input_tokens u))
                               steps))
         (cache_creation_input_tokens t)
  /\ cache_read_input_tokens t'
     = option_map
         (fun a => a + sumZ (map (fun u => JS.or0 (cache_read_input_tokens u))
                               steps))
         (cache_read_input_tokens t).
Proof.
  revert l. induction events as [|msg events IH]; intro l.
  - simpl. rewrite !Z.add_0_r.
    repeat split; try reflexivity.
    + now destruct (cache_creation_input_tokens (totalTokenUsage l));
        simpl; rewrite ?Z.add_0_r.
    + now destruct (cache_read_input_tokens (totalTokenUsage l));
        simpl; rewrite ?Z.add_0_r.
  - rewrite drain_cons. specialize (IH (onMessage l msg)).
    cbv zeta in IH |- *. destruct IH as (Hs & Hi & Ho & Hc & Hr).
    destruct (onMessage_totals l msg) as [Hm1 Hm2].
    rewrite Hm1 in Hs. rewrite Hm2 in Hi, Ho, Hc, Hr.
    destruct msg as [[u|] sid|st c u' sid|st sid|sid];
      cbv beta iota in Hs, Hi, Ho, Hc, Hr;
      try (now repeat split).
    destruct (trackUsage_totals u l) as (Ts & Ti & To & Tc & Tr).
    cbv zeta in Ts, Ti, To, Tc, Tr.
    rewrite Ts in Hs. rewrite Ti in Hi. rewrite To in Ho.
    rewrite Tc, option_map_add in Hc. rewrite Tr, option_map_add in Hr.
    change (usageSteps (MsgAssistant (Some u) sid :: events))
      with (u :: usageSteps events).
    simpl List.length. simpl map. simpl sumZ.
    rewrite Hs, Hi, Ho, Hc, Hr.
    repeat split; lia.
Qed.

(** X9. The token summary that [improveGame] prints adds up: after
    the stream, the step count is the number of assistant messages
    that carried a usage block, the input and output totals are the
    sums over those blocks, and the cache totals are the sums of
    their cache counts, an absent count adding nothing.  Result,
    system and user messages do not change the totals. *)
Theorem token_totals_add_up (events : list SDKMessage) (m : GameMetadata) :
  let steps := usageSteps events in
  let l := drain events (initLocals m) in
  stepCount l = Z.of_nat (List.length steps)
  /\ input_tokens (totalTokenUsage l) = sumZ (map input_tokens steps)
  /\ output_tokens (totalTokenUsage l) = sumZ (map output_tokens steps)
  /\ cache_creation_input_tokens (totalTokenUsage l)
     = Some (sumZ (map (fun u => JS.or0 (cache_creation_input_tokens u)) steps))
  /\ cache_read_input_tokens (totalTokenUsage l)
     = Some (sumZ (map (fun u => JS.or0 (cache_read_input_tokens u)) steps)).
Proof.
  intros steps l.
  destruct (drain_totals events (initLocals m)) as (Hs & Hi & Ho & Hc & Hr).
  cbv zeta in Hs, Hi, Ho, Hc, Hr. fold steps l in Hs, Hi, Ho, Hc, Hr.
  rewrite Hs, Hi, Ho, Hc, Hr. simpl. auto.
Qed.

(** * The session queries *)

(** The summaries of the entries, had every [fs.stat] succeeded. *)
Lemma listed_spec (g : string) (f : GameFolder) :
  listed (g, f) = true <->
  folder_stat f = Some true /\ exists s, summarize g f = Some s.
Proof.
  unfold listed, summarize; simpl.
  destruct (folder_stat f) as [[|]|]; destruct (folder_file f);
    destruct (folder_index f); simpl; split;
    try discriminate; try (intros [H _]; discriminate);
    try (intros [_ [s H]]; discriminate); eauto.
Qed.

Lemma summarize_id (g : string) (f : GameFolder) (s : GameSummary) :
  summarize g f = Some s -> sum_id s = g.
Proof.
  unfold summarize. destruct (folder_index f); [|discriminate].
  destruct (folder_file f); try discriminate; now intros [= <-].
Qed.

Lemma listLoop_all_stat (entries : list (string * GameFolder))
    (games : list GameSummary) :
  (forall e, In e entries -> folder_stat (snd e) <> None) ->
  exists shown,
    listLoop entries games = Some (games ++ shown)%list
    /\ map sum_id shown = map fst (filter listed entries)
    /\ (forall s, In s shown ->
          exists f, In (sum_id s, f) entries
                    /\ folder_stat f = Some true
                    /\ summarize (sum_id s) f = Some s).
Proof.
  revert games. induction entries as [|[g f] rest IH]; intros games Hstat.
  - exists []. rewrite app_nil_r. repeat split; try reflexivity.
    intros s [].
  - assert (Hrest : forall e, In e rest -> folder_stat (snd e) <> None)
      by (intros e He; apply Hstat; now right).
    pose proof (Hstat (g, f) (or_introl eq_refl)) as Hf. simpl in Hf.
    pose proof (listed_spec g f) as Hl.
    cbn [listLoop filter].
    destruct (folder_stat f) as [[|]|] eqn:Es; [| |contradiction].
    + destruct (summarize g f) as [s0|] eqn:Esum.
      * assert (El : listed (g, f) = true) by (apply Hl; eauto).
        rewrite El.
        destruct (IH (games ++ [s0])%list Hrest) as (shown & Hloop & Hids & Hin).
        exists (s0 :: shown). rewrite Hloop, <- app_assoc.
        split; [reflexivity|].
        split; [cbn [map fst]; now rewrite Hids, (summarize_id _ _ _ Esum)|].
        intros s [<-|Hs].
        -- exists f. rewrite (summarize_id _ _ _ Esum).
           split; [now left|]. split; [exact Es|exact Esum].
        -- destruct (Hin s Hs) as (f' & Hf' & H'). exists f'.
           split; [now right|exact H'].
      * assert (El : listed (g, f) = false).
        { apply not_true_is_false. intro E. apply Hl in E.
          destruct E as [_ [s E]]. discriminate. }
        rewrite El.
        destruct (IH games Hrest) as (shown & Hloop & Hids & Hin).
        exists shown. split; [exact Hloop|]. split; [exact Hids|].
        intros s Hs. destruct (Hin s Hs) as (f' & Hf' & H'). exists f'.
        split; [now right|exact H'].
    + assert (El : listed (g, f) = false).
      { apply not_true_is_false. intro E. apply Hl in E.
        destruct E as [E _]. discriminate. }
      rewrite El.
      destruct (IH games Hrest) as (shown & Hloop & Hids & Hin).
      exists shown. split; [exact Hloop|]. split; [exact Hids|].
      intros s Hs. destruct (Hin s Hs) as (f' & Hf' & H'). exists f'.
      split; [now right|exact H'].
Qed.

Lemma listLoop_stat_throws (entries : list (string * GameFolder))
    (games : list GameSummary) :
  (exists e, In e entries /\ folder_stat (snd e) = None) ->
  listLoop entries games = None.
Proof.
  revert games. induction entries as [|[g f] rest IH]; intros games (e & He & Hs).
  - destruct He.
  - simpl. destruct He as [<-|He].
    + simpl in Hs. now rewrite Hs.
    + destruct (folder_stat f) as [[|]|]; [| |reflexivity].
      * destruct (summarize g f); apply IH; eauto.
      * apply IH; eauto.
Qed.

(** X10. [listGamesWithSessions] never fails, and shows either all or
    nothing: when the games directory cannot be read, or [fs.stat]
    throws on any one entry, the list is empty, whatever the other
    entries are; otherwise it shows, in directory order, exactly the
    entries that are directories with an [index.html] and whose
    metadata is not the JSON value [null]. *)
Theorem listing_is_all_or_nothing (entries : list (string * GameFolder)) :
  listGamesWithSessions None = []
  /\ ((exists e, In e entries /\ folder_stat (snd e) = None) ->
      listGamesWithSessions (Some entries) = [])
  /\ ((forall e, In e entries -> folder_stat (snd e) <> None) ->
      map sum_id (listGamesWithSessions (Some entries))
      = map fst (filter listed entries)).
Proof.
  split; [reflexivity|]. split.
  - intro H. unfold listGamesWithSessions.
    now rewrite (listLoop_stat_throws entries [] H).
  - intro H. unfold listGamesWithSessions.
    destruct (listLoop_all_stat entries [] H) as (shown & -> & Hids & _).
    exact Hids.
Qed.


Lemma lookupFolder_In (gameId : string) (f : GameFolder)
    (entries : list (string * GameFolder)) :
  NoDup (map fst entries) ->
  In (gameId, f) entries ->
  lookupFolder gameId entries = Some f.
Proof.
  unfold lookupFolder. induction entries as [|[g f'] rest IH]; intros Hnd Hin.
  - destruct Hin.
  - simpl in Hnd. inversion Hnd as [|x l Hnotin Hnd' Heq]; subst.
    simpl. destruct (String.eqb_spec g gameId) as [->|Hne].
    + destruct Hin as [[= ->]|Hin]; [reflexivity|].
      exfalso. apply Hnotin. now apply (in_map fst) in Hin.
    + destruct Hin as [[= -> _]|Hin]; [contradiction|]. now apply IH.
Qed.

(** X12. The two queries agree on a game: for every game that
    [listGamesWithSessions] shows, [getGameSessionInfo] on its id
    succeeds and reports the same name and the same improvement
    count; and when it reports a session, the listing shows the game
    with an active session. *)
Theorem listing_agrees_with_session_info
    (entries : list (string * GameFolder)) (s : GameSummary) :
  NoDup (map fst entries) ->
  In s (listGamesWithSessions (Some entries)) ->
  exists info,
    getGameSessionInfo (sum_id s) (lookupFolder (sum_id s) entries) = inr info
    /\ info_gameName info = sum_name s
    /\ info_improvementCount info = sum_improvementCount s
    /\ (info_hasSession info = true -> sum_hasActiveSession s = true).
Proof.
  intros Hnd Hs. unfold listGamesWithSessions in Hs.
  assert (Hstat : forall e, In e entries -> folder_stat (snd e) <> None).
  { intros e He Hnone.
    rewrite (listLoop_stat_throws entries []) in Hs by eauto. destruct Hs. }
  destruct (listLoop_all_stat entries [] Hstat) as (shown & Hl & _ & Hin).
  rewrite Hl in Hs. simpl in Hs.
  destruct (Hin s Hs) as (f & Hf & _ & Hsum).
  rewrite (lookupFolder_In _ _ _ Hnd Hf).
  unfold summarize in Hsum. unfold getGameSessionInfo.
  destruct (folder_index f); [|discriminate].
  destruct (folder_file f) as [| |p]; [|discriminate|];
    injection Hsum as <-; eexists; (split; [reflexivity|]); simpl.
  - unfold orElse. simpl.
    destruct (sum_id _ =? EmptyString)%string eqn:E; simpl; auto.
  - split; [reflexivity|]. split; [reflexivity|].
    intros ->. apply orb_true_r.
Qed.

Section QueriesAfterImprovement.

Variable getTime : string -> option Z.
Variable toISOString : Z -> string.

(** X13. After a completed improvement the listing shows one more
    improvement.  Its [hasActiveSession] comes from the session id
    and from the [.claude] directory, not from the flag in the file:
    after a fresh start that was issued no token, in a folder without
    [.claude], the listing shows no active session although the file
    says [hasActiveSession: true]. *)
Theorem listing_after_improvement
    (w : World) (m0 : GameMetadata) (gameId : string) (f : GameFolder) :
  folder_index f = true ->
  folder_file f = FileRecord (partialOf (reconciled getTime toISOString w m0)) ->
  exists s,
    summarize gameId f = Some s
    /\ sum_improvementCount s = improvementCount m0 + 1
    /\ sum_hasActiveSession s
       = JS.truthy (claudeSessionId (reconciled getTime toISOString w m0))
         || hasClaude f
    /\ (shouldReset getTime m0 (date_now w) = true ->
        issuedSessionIds (query_events w) = [] ->
        hasClaude f = false ->
        sum_hasActiveSession s = false
        /\ hasActiveSession (reconciled getTime toISOString w m0) = true).
Proof.
  intros Hi Hf. unfold summarize. rewrite Hi, Hf.
  eexists. split; [reflexivity|]. simpl.
  destruct (reconciled_count_and_cost getTime toISOString w m0) as [Hc _].
  split; [rewrite orZero_id; exact Hc|]. split; [reflexivity|].
  intros Hr Hnone Hclaude.
  destruct (reconciled_fresh getTime toISOString w m0 Hr) as [_ Ht].
  rewrite Ht, Hclaude. unfold newSessionToken. rewrite Hnone.
  split; [reflexivity|].
  unfold reconciled, reconcile. set (l := drain _ _).
  destruct (shouldReset getTime m0 (date_now w) || _);
    [destruct (JS.truthy (sessionId l))|]; reflexivity.
Qed.

(** * The improvement endpoint *)

Lemma nonEmptyString_spec (v : JsValue) (s : string) :
  nonEmptyString v = Some s <-> v = JsString s /\ s <> EmptyString.
Proof.
  destruct v as [|s'|]; simpl; try (split; [discriminate|intros [H _]; discriminate]).
  destruct (String.eqb_spec s' EmptyString) as [->|Hne].
  - split; [discriminate|]. intros [[= <-] H]. contradiction.
  - split.
    + intros [= <-]. auto.
    + intros [[= <-] _]. reflexivity.
Qed.

(** X14. The endpoint runs [improveGame] only on a game id and a
    prompt that are non-empty strings: any other body is answered
    400, the game id being checked first, and then no game is touched
    and no room registered. *)
Theorem endpoint_rejects_bad_requests
    (w : World) (reload : Reload) (gameId prompt : JsValue)
    (resolve : string -> GameDir) :
  nonEmptyString gameId = None \/ nonEmptyString prompt = None ->
  let answer := improveEndpoint getTime toISOString w reload gameId prompt
                  resolve in
  status (fst answer) = 400
  /\ improved (snd answer) = None
  /\ defined (snd answer) = None
  /\ payload (fst answer)
     = ErrorJson (match nonEmptyString gameId with
                  | None => "Invalid game ID"
                  | Some _ => "Invalid prompt"
                  end).
Proof.
  intros H answer. subst answer. unfold improveEndpoint.
  destruct (nonEmptyString gameId) as [g|].
  - destruct H as [H|H]; [discriminate|]. rewrite H. simpl. auto.
  - simpl. auto.
Qed.

(** X15. For a well-formed request the status tells little: a game
    that is missing or whose metadata cannot be read is answered 500
    with the fixed message "Failed to improve game"; every call that
    reaches the agent is answered 200 with the result of
    [improveGame], also when the agent failed and the result says
    [success: false].  The room is registered again exactly when the
    result says [success: true] and the reloaded module has a room
    class; a failing reload does not change the answer. *)
Theorem endpoint_answers
    (w : World) (reload : Reload) (gameId prompt : JsValue) (g p : string)
    (resolve : string -> GameDir) :
  nonEmptyString gameId = Some g ->
  nonEmptyString prompt = Some p ->
  let answer := improveEndpoint getTime toISOString w reload gameId prompt
                  resolve in
  ((forall m0, resolve g <> Game m0) ->
   fst answer = mkResponse 500 (ErrorJson "Failed to improve game")
   /\ snd answer = mkEffects (Some (g, resolve g)) None)
  /\ (forall m0, resolve g = Game m0 ->
        fst answer
        = mkResponse 200
            (ResultJson (fst (improveLoaded getTime toISOString w m0)))
        /\ improved (snd answer)
           = Some (g, snd (improveLoaded getTime toISOString w m0))
        /\ (forall cls,
              defined (snd answer) = Some (g, cls) <->
              success (fst (improveLoaded getTime toISOString w m0)) = true
              /\ reload = ReloadClass cls)
        /\ (defined (snd answer) = None \/
            exists cls, defined (snd answer) = Some (g, cls))
        /\ (query_throws w <> None ->
            success (fst (improveLoaded getTime toISOString w m0)) = false)).
Proof.
  intros Hg Hp answer. subst answer. unfold improveEndpoint.
  rewrite Hg, Hp. split.
  - intro Hno. destruct (resolve g) as [| |m0]; simpl; auto.
    now destruct (Hno m0).
  - intros m0 ->. simpl.
    set (r := fst (improveLoaded getTime toISOString w m0)).
    split; [reflexivity|]. split; [reflexivity|]. split; [|split].
    + intro cls. destruct (success r); [|split; [discriminate|intros [H _]; discriminate]].
      destruct reload as [| |cls']; split; try discriminate;
        try (intros [_ H]; discriminate).
      * intros [= ->]. auto.
      * intros [_ [= ->]]. reflexivity.
    + destruct (success r); [|auto]. destruct reload; eauto.
    + intro Hq. subst r. unfold improveLoaded.
      destruct (query_throws w); [reflexivity|contradiction].
Qed.

End QueriesAfterImprovement.

(** * The generated room *)

Lemma room_after_snoc (events : list Room.Event) (ev : Room.Event) :
  Room.after (events ++ [ev]) = Room.handle (Room.after events) ev.
Proof. unfold Room.after. now rewrite fold_left_app. Qed.

Lemma room_joined_snoc (events : list Room.Event) (ev : Room.Event)
    (c : string) (b : bool) :
  Room.joined (events ++ [ev]) c b
  = Room.joined [ev] c (Room.joined events c b).
Proof.
  revert b. induction events as [|e events IH]; intro b.
  - reflexivity.
  - destruct e; simpl; apply IH.
Qed.

(** X16. A client is in the room exactly when the last thing it did,
    among joining and leaving, was to join: messages and ticks never
    add or remove a player.  A "move" or "stopMove" from a client
    that is not in the room leaves the whole state as it is. *)
Theorem room_membership (events : list Room.Event) (c : string) :
  (Room.players (Room.after events) c <> None
   <-> Room.joined events c false = true)
  /\ (Room.joined events c false = false ->
      forall data,
        Room.after (events ++ [Room.Move c data]) = Room.after events
        /\ Room.after (events ++ [Room.StopMove c]) = Room.after events).
Proof.
  assert (H : forall evs,
             Room.players (Room.after evs) c <> None
             <-> Room.joined evs c false = true).
  { intro evs. induction evs as [|ev evs IH] using rev_ind.
    - simpl. split; [intro H; now destruct H|discriminate].
    - rewrite room_after_snoc, room_joined_snoc.
      destruct ev as [c' r1 r2|c'|c' data|c'|dt]; simpl;
        unfold Room.onMove, Room.onStopMove, Room.get, Room.set, Room.delete;
        simpl.
      + destruct (String.eqb_spec c c'); [split; [auto|discriminate]|exact IH].
      + destruct (String.eqb_spec c c');
          [split; [intro H; now destruct H|discriminate]|exact IH].
      + destruct (Room.players (Room.after evs) c') eqn:E; simpl; [|exact IH].
        destruct (String.eqb_spec c c') as [->|]; [|exact IH].
        rewrite E in IH. split; [intros _; apply IH; discriminate|discriminate].
      + destruct (Room.players (Room.after evs) c') eqn:E; simpl; [|exact IH].
        destruct (String.eqb_spec c c') as [->|]; [|exact IH].
        rewrite E in IH. split; [intros _; apply IH; discriminate|discriminate].
      + exact IH. }
  split; [apply H|].
  intros Hout data.
  assert (Hnone : Room.players (Room.after events) c = None).
  { destruct (Room.players (Room.after events) c) eqn:E; [|reflexivity].
    assert (Room.joined events c false = true) by (apply H; rewrite E; discriminate).
    congruence. }
  rewrite !room_after_snoc. simpl.
  unfold Room.onMove, Room.onStopMove, Room.get. now rewrite Hnone.
Qed.

(** X17. Whatever happens to the room, every player is stored under
    its own session id, with the score and the ready flag it was
    created with, and the game is never started nor won: the
    generated room keeps these as the template set them. *)
Theorem room_keeps_template_state (events : list Room.Event) :
  Room.gameStarted (Room.after events) = false
  /\ Room.winnerId (Room.after events) = EmptyString
  /\ forall k p,
       Room.players (Room.after events) k = Some p ->
       Room.id p = k /\ Room.score p = 0%Q /\ Room.ready p = false.
Proof.
  induction events as [|ev events IH] using rev_ind.
  - simpl. repeat split; discriminate.
  - rewrite room_after_snoc. destruct IH as (Hs & Hw & Hp).
    destruct ev as [c r1 r2|c|c data|c|dt]; simpl;
      unfold Room.onMove, Room.onStopMove, Room.get.
    + split; [exact Hs|]. split; [exact Hw|]. intros k p. simpl.
      unfold Room.set. destruct (String.eqb_spec k c) as [->|].
      * intros [= <-]. simpl. auto.
      * apply Hp.
    + split; [exact Hs|]. split; [exact Hw|]. intros k p. simpl.
      unfold Room.delete. destruct (String.eqb_spec k c); [discriminate|].
      apply Hp.
    + destruct (Room.players (Room.after events) c) as [q|] eqn:E;
        [|auto].
      simpl. split; [exact Hs|]. split; [exact Hw|]. intros k p.
      unfold Room.set. destruct (String.eqb_spec k c) as [->|].
      * intros [= <-]. simpl. apply (Hp c q E).
      * apply Hp.
    + destruct (Room.players (Room.after events) c) as [q|] eqn:E;
        [|auto].
      simpl. split; [exact Hs|]. split; [exact Hw|]. intros k p.
      unfold Room.set. destruct (String.eqb_spec k c) as [->|].
      * intros [= <-]. simpl. apply (Hp c q E).
      * apply Hp.
    + auto.
Qed.

(** * Generation *)

Lemma genSessionId_snoc (events : list SDKMessage) (msg : SDKMessage) :
  genSessionId (events ++ [msg]) = onGenMessage (genSessionId events) msg.
Proof. unfold genSessionId. now rewrite fold_left_app. Qed.

Lemma newSessionToken_snoc (events : list SDKMessage) (msg : SDKMessage) :
  newSessionToken (events ++ [msg])
  = if JS.truthy (session_id_of msg) then session_id_of msg
    else newSessionToken events.
Proof.
  unfold newSessionToken, issuedSessionIds.
  rewrite map_app, filter_app, last_app_default. simpl.
  now destruct (JS.truthy (session_id_of msg)).
Qed.

(** X18. The session id that generation stores, when it is not
    empty, is the last non-empty id that the stream carried, the one
    that an improvement adopts from its own stream; and when every
    init message carries an id, generation stores exactly that.  An
    init message without an id, if nothing follows with one, leaves
    the game without a session. *)
Theorem generation_session_id (events : list SDKMessage) :
  (JS.truthy (genSessionId events) = true ->
   genSessionId events = newSessionToken events)
  /\ ((forall sid, In (MsgSystem "init" sid) events -> JS.truthy sid = true) ->
      genSessionId events = newSessionToken events)
  /\ (forall sid, JS.truthy sid = false ->
        JS.truthy (genSessionId (events ++ [MsgSystem "init" sid])) = false).
Proof.
  split; [|split].
  - induction events as [|msg events IH] using rev_ind; [discriminate|].
    rewrite genSessionId_snoc, newSessionToken_snoc. unfold onGenMessage.
    destruct (JS.truthy (session_id_of msg)) eqn:Et; [reflexivity|].
    destruct msg as [u sid|st c u sid|st sid|sid]; try exact IH.
    simpl in Et. destruct (st =? "init")%string; [|exact IH].
    intro H. congruence.
  - induction events as [|msg events IH] using rev_ind; [reflexivity|].
    intro Hinit.
    assert (Hprev : genSessionId events = newSessionToken events).
    { apply IH. intros sid Hin. apply Hinit, in_or_app. now left. }
    rewrite genSessionId_snoc, newSessionToken_snoc. unfold onGenMessage.
    destruct (JS.truthy (session_id_of msg)) eqn:Et; [reflexivity|].
    destruct msg as [u sid|st c u sid|st sid|sid]; try exact Hprev.
    destruct (String.eqb_spec st "init") as [->|]; [|exact Hprev].
    simpl in Et. rewrite Hinit in Et; [discriminate|].
    apply in_or_app. right. now left.
  - intros sid Hs. rewrite genSessionId_snoc. unfold onGenMessage. simpl.
    now rewrite Hs.
Qed.

Section GenerationFacts.

Variable toISOString : Z -> string.

(** The two ways a generation can end once its setup has succeeded
    and the removal works. *)
Lemma generateGame_cases (w : GenWorld) (gameName prompt : string) :
  gen_setup w = None ->
  gen_rm w = None ->
  (exists e, generateGame toISOString w gameName prompt
             = (GenRejected e, NoSuchGame))
  \/ (generateGame toISOString w gameName prompt
      = (GenResolved gameName (gameIdAt (gen_now w)),
         Game (scaffoldMetadata toISOString (gameIdAt (gen_now w)) gameName
                 prompt (gen_saved w) (genSessionId (gen_events w))))
      /\ gen_apiKey w = true
      /\ gen_throws w = None
      /\ (forall file, In file requiredFiles -> gen_present w file = true)).
Proof.
  intros Hsetup Hrm. unfold generateGame, cleanUp. rewrite Hsetup, Hrm.
  set (missing := filter (fun file => negb (gen_present w file)) requiredFiles).
  destruct (gen_apiKey w); cbn [negb]; [|eauto].
  destruct (gen_throws w); [eauto|].
  destruct (gen_readdir w); [eauto|].
  destruct missing as [|file0 rest] eqn:Ef; [|eauto].
  destruct (gen_fixImports w); [eauto|].
  destruct (gen_writeMetadata w); [eauto|].
  right. split; [reflexivity|]. split; [reflexivity|]. split; [reflexivity|].
  intros file Hin.
  destruct (gen_present w file) eqn:Ep; [reflexivity|].
  assert (Hm : In file missing).
  { apply filter_In. split; [exact Hin|]. now rewrite Ep. }
  rewrite Ef in Hm. destruct Hm.
Qed.

(** X19. A generation whose setup succeeded leaves either a complete
    game or nothing.  When it rejects, the removal succeeding, no
    game directory is left.  It resolves only when the API key is
    set, the stream ended without throwing and the four required
    files are there; it then returns the name it was given and the id
    made of the time of the call, and the directory holds the
    scaffolded record under that id.  Without the API key, after a
    throwing stream or with a required file missing, it rejects. *)
Theorem generation_is_all_or_nothing
    (w : GenWorld) (gameName prompt : string) :
  gen_setup w = None ->
  gen_rm w = None ->
  let outcome := generateGame toISOString w gameName prompt in
  (forall e, fst outcome = GenRejected e -> snd outcome = NoSuchGame)
  /\ (forall n gameId,
        fst outcome = GenResolved n gameId ->
        n = gameName
        /\ gameId = gameIdAt (gen_now w)
        /\ snd outcome
           = Game (scaffoldMetadata toISOString gameId gameName prompt
                     (gen_saved w) (genSessionId (gen_events w)))
        /\ gen_apiKey w = true
        /\ gen_throws w = None
        /\ (forall file, In file requiredFiles -> gen_present w file = true))
  /\ (gen_apiKey w = false
      \/ gen_throws w <> None
      \/ (exists file, In file requiredFiles /\ gen_present w file = false) ->
      exists e, fst outcome = GenRejected e).
Proof.
  intros Hsetup Hrm outcome. subst outcome.
  destruct (generateGame_cases w gameName prompt Hsetup Hrm)
    as [[e ->]|(-> & Hkey & Hthrows & Hfiles)]; simpl.
  - split; [reflexivity|]. split; [discriminate|]. eauto.
  - split; [discriminate|]. split.
    + intros n gameId [= <- <-]. auto 10.
    + intros [H|[H|(file & Hin & H)]].
      * congruence.
      * contradiction.
      * rewrite (Hfiles file Hin) in H. discriminate.
Qed.

End GenerationFacts.

(** * The games listing *)

Lemma takeDigits_uint (d : Decimal.uint) :
  takeDigits (NilEmpty.string_of_uint d) = NilEmpty.string_of_uint d.
Proof. induction d; simpl; [reflexivity|..]; now rewrite IHd. Qed.

Lemma takeDigits_decimal (d : Decimal.uint) :
  takeDigits (NilZero.string_of_uint d) = NilZero.string_of_uint d
  /\ NilZero.string_of_uint d <> EmptyString.
Proof.
  destruct d; simpl; (split; [|discriminate]);
    try reflexivity; now rewrite takeDigits_uint.
Qed.

Lemma substring_all (s : string) : substring 0 (String.length s) s = s.
Proof. induction s as [|c s IH]; simpl; [reflexivity|now rewrite IH]. Qed.

Lemma matchGame_digits (digits : string) :
  takeDigits digits = digits ->
  digits <> EmptyString ->
  matchGame ("game_" ++ digits) = Some digits.
Proof.
  intros Hd Hne.
  assert (H : matchGameHere ("game_" ++ digits) = Some digits).
  { unfold matchGameHere. simpl.
    assert (Hp : prefix EmptyString digits = true) by now destruct digits.
    rewrite Hp, Nat.sub_0_r, substring_all, Hd.
    destruct (String.eqb_spec digits EmptyString); [contradiction|reflexivity]. }
  change (matchGame ("game_" ++ digits))
    with (match matchGameHere ("game_" ++ digits) with
          | Some d => Some d
          | None => matchGame ("ame_" ++ digits)
          end).
  now rewrite H.
Qed.

(** X21. The listing recovers the timestamp from the id of a
    generated game: for a game named by [generateGame] at a time that
    is not negative, the regular expression of the fallback captures
    exactly the digits of that time, so that a generated game whose
    metadata cannot be read is shown as "Game <time>", with the
    description and the icon of generated games. *)
Theorem generated_id_names_itself (now : Z) (f : GameFolder) :
  0 <= now ->
  matchGame (gameIdAt now) = Some (NilZero.string_of_int (Z.to_int now))
  /\ (folder_index f = true ->
      (forall p, folder_file f <> FileRecord p) ->
      describe (gameIdAt now) f
      = Some (mkApiGame (gameIdAt now)
                ("Game " ++ NilZero.string_of_int (Z.to_int now))
                generatedDescription "🎯"
                ("/games/" ++ gameIdAt now ++ "/"))).
Proof.
  intro Hnow.
  assert (Hm : matchGame (gameIdAt now)
               = Some (NilZero.string_of_int (Z.to_int now))).
  { unfold gameIdAt.
    assert (Hd : exists d, Z.to_int now = Decimal.Pos d).
    { destruct now as [|q|q]; simpl; eauto. lia. }
    destruct Hd as [d ->]. simpl NilZero.string_of_int.
    destruct (takeDigits_decimal d) as [Ht Hne].
    now apply matchGame_digits. }
  split; [exact Hm|].
  intros Hi Hfile. unfold describe. rewrite Hi, Hm.
  change (gameIdAt now =? "pong")%string with false.
  change (gameIdAt now =? "snake")%string with false.
  cbv iota.
  destruct (folder_file f) as [| |p]; try reflexivity.
  now destruct (Hfile p).
Qed.

Lemma describe_some (g : string) (f : GameFolder) :
  folder_index f = true ->
  exists a, describe g f = Some a /\ api_id a = g.
Proof.
  intro Hi. unfold describe. rewrite Hi.
  destruct (g =? "pong")%string; [eauto|].
  destruct (g =? "snake")%string; [eauto|].
  destruct (folder_file f); [| |eauto]; destruct (matchGame g); eauto.
Qed.

Lemma apiLoop_all_stat (entries : list (string * GameFolder))
    (games : list ApiGame) :
  (forall e, In e entries -> folder_stat (snd e) <> None) ->
  exists shown,
    apiLoop entries games = Some (games ++ shown)%list
    /\ map api_id shown = map fst (filter visible entries).
Proof.
  revert games. induction entries as [|[g f] rest IH]; intros games Hstat.
  - exists []. now rewrite app_nil_r.
  - assert (Hrest : forall e, In e rest -> folder_stat (snd e) <> None)
      by (intros e He; apply Hstat; now right).
    pose proof (Hstat (g, f) (or_introl eq_refl)) as Hf. simpl in Hf.
    cbn [apiLoop filter]. unfold visible at 1. cbn [snd].
    destruct (folder_stat f) as [[|]|]; [| |contradiction].
    + destruct (folder_index f) eqn:Ei.
      * destruct (describe_some g f Ei) as (a & -> & Ha).
        destruct (IH (games ++ [a])%list Hrest) as (shown & Hl & Hids).
        exists (a :: shown). rewrite Hl, <- app_assoc. split; [reflexivity|].
        cbn [map fst]. now rewrite Hids, Ha.
      * unfold describe. rewrite Ei. exact (IH games Hrest).
    + exact (IH games Hrest).
Qed.

Lemma apiLoop_stat_throws (entries : list (string * GameFolder))
    (games : list ApiGame) :
  (exists e, In e entries /\ folder_stat (snd e) = None) ->
  apiLoop entries games = None.
Proof.
  revert games. induction entries as [|[g f] rest IH]; intros games (e & He & Hs).
  - destruct He.
  - simpl. destruct He as [<-|He].
    + simpl in Hs. now rewrite Hs.
    + destruct (folder_stat f) as [[|]|]; [| |reflexivity].
      * destruct (describe g f); apply IH; eauto.
      * apply IH; eauto.
Qed.

(** X22. [GET /api/games] answers 500 when the games directory cannot
    be read or [fs.stat] throws on any entry (where
    [listGamesWithSessions] returns an empty list); otherwise it
    answers 200 with, in directory order, every directory that has an
    [index.html].  Every game that [listGamesWithSessions] shows is
    among them; a game whose metadata is the JSON value [null] is
    shown here and not there. *)
Theorem api_games_listing (entries : list (string * GameFolder)) :
  apiGames None = (500, inl "Failed to list games")
  /\ ((exists e, In e entries /\ folder_stat (snd e) = None) ->
      apiGames (Some entries) = (500, inl "Failed to list games"))
  /\ ((forall e, In e entries -> folder_stat (snd e) <> None) ->
      exists games,
        apiGames (Some entries) = (200, inr games)
        /\ map api_id games = map fst (filter visible entries)
        /\ incl (map sum_id (listGamesWithSessions (Some entries)))
             (map api_id games))
  /\ (forall g f, folder_stat f = Some true -> folder_index f = true ->
                  folder_file f = FileNull ->
                  visible (g, f) = true /\ listed (g, f) = false).
Proof.
  split; [reflexivity|]. split; [|split].
  - intro H. unfold apiGames. now rewrite (apiLoop_stat_throws entries [] H).
  - intro H. unfold apiGames.
    destruct (apiLoop_all_stat entries [] H) as (shown & -> & Hids).
    exists shown. split; [reflexivity|]. split; [exact Hids|].
    assert (Hsame : map sum_id (listGamesWithSessions (Some entries))
                    = map fst (filter listed entries)).
    { unfold listGamesWithSessions.
      now destruct (listLoop_all_stat entries [] H) as (l & -> & Hl' & _). }
    rewrite Hids, Hsame.
    intros g Hg. apply in_map_iff in Hg. destruct Hg as ([g' f] & <- & Hin).
    apply filter_In in Hin. destruct Hin as [Hin Hl].
    apply in_map_iff. exists (g', f). split; [reflexivity|].
    apply filter_In. split; [exact Hin|].
    unfold listed in Hl. unfold visible. simpl in *.
    destruct (folder_stat f) as [[|]|]; try discriminate.
    now destruct (folder_file f).
  - intros g f Hs Hi Hn. unfold visible, listed. simpl.
    now rewrite Hs, Hi, Hn.
Qed.

(** * The generation endpoint *)

Section GenerationEndpointFacts.

Variable getTime : string -> option Z.
Variable toISOString : Z -> string.


End GenerationEndpointFacts.

(** * The cost analysis *)


Section AnalysisFacts.

Variable getTime : string -> option Z.
Variable toISOString : Z -> string.


End AnalysisFacts.

(** * The further properties, on sample data *)

Import Cases.

Lemma afterSilent_session_count :
  reachable getTime toISOString (Game afterSilent)
  /\ sessionImprovementCount afterSilent = Some 1
  /\ 1 <= 1 <= 5 /\ 1 <= improvementCount afterSilent.
Proof.
  split; [exact afterSilent_reachable|]. split; [reflexivity|].
  destruct (session_count_within_bounds getTime toISOString afterSilent 1
              afterSilent_reachable eq_refl) as (Hb & Hle & _).
  split; [exact Hb|exact Hle].
Defined.

Lemma afterSilent_was_improved :
  reachable getTime toISOString (Game afterSilent)
  /\ (lastImprovementAt afterSilent = None
      <-> improvementCount afterSilent = 0).
Proof.
  split; [exact afterSilent_reachable|].
  exact (proj1 (never_improved_iff_no_timestamp getTime toISOString
                  afterSilent afterSilent_reachable)).
Defined.

Lemma two_of_three_requests_count :
  exists m,
    improveMany getTime toISOString "game_1" [quiet; quietThrows; chatty]
      (Game warm) = Game m
    /\ improvementCount m = 4.
Proof.
  eexists. split; [reflexivity|].
  exact (improvement_count_counts_completed getTime toISOString "game_1"
           [quiet; quietThrows; chatty] warm _ eq_refl).
Defined.

Lemma maze_keeps_its_name :
  exists m,
    improveMany getTime toISOString "game_1" [quiet; quietThrows; chatty]
      (Game warm) = Game m
    /\ name m = "Maze".
Proof.
  eexists. split; [reflexivity|].
  exact (proj1 (proj2 (identity_fields_preserved getTime toISOString "game_1"
                         [quiet; quietThrows; chatty] warm _ eq_refl))).
Defined.

Lemma costly_start_forces_fresh :
  (0.20 < reportedCost (query_events chatty))%Q
  /\ shouldReset getTime (reconciled getTime toISOString chatty worn)
       (warmNow + 60000) = true.
Proof.
  assert (H : (0.20 < reportedCost (query_events chatty))%Q) by reflexivity.
  split; [exact H|].
  exact (costly_improvement_forces_fresh getTime toISOString chatty worn
           (warmNow + 60000) (or_introl H)).
Defined.

Lemma cheap_resume_is_resumed_again :
  getTime (toISOString (date_done quiet)) = Some (date_done quiet)
  /\ shouldReset getTime (reconciled getTime toISOString quiet warm)
       (date_done quiet + 60000) = false
  /\ resumeOption getTime (reconciled getTime toISOString quiet warm)
       (date_done quiet + 60000) = Some "abc".
Proof.
  split; [reflexivity|].
  apply (cheap_recent_improvement_is_resumed getTime toISOString quiet warm
           (date_done quiet + 60000) "abc").
  - reflexivity.
  - vm_compute. discriminate.
  - reflexivity.
  - intros _. vm_compute. reflexivity.
  - vm_compute. discriminate.
  - intros c [= <-]. vm_compute. discriminate.
  - vm_compute. discriminate.
Defined.

Lemma bloated_stays_fresh :
  contextSize bloated = Some 45000
  /\ exists m,
       improveMany getTime toISOString "game_1" [quiet; quietThrows]
         (Game bloated) = Game m
       /\ contextSize m = Some 45000
       /\ shouldReset getTime m (warmNow + 60000) = true.
Proof.
  split; [reflexivity|].
  eexists. split; [reflexivity|].
  apply (large_context_keeps_forcing_fresh getTime toISOString "game_1"
           [quiet; quietThrows] bloated _ 45000 (warmNow + 60000)).
  - reflexivity.
  - reflexivity.
  - intros w [<-|[<-|[]]]; reflexivity.
  - reflexivity.
Defined.

Lemma shelf_listing :
  listGamesWithSessions (Some brokenShelf) = []
  /\ map sum_id (listGamesWithSessions (Some shelf)) = ["game_1"; "game_2"].
Proof.
  split.
  - apply (proj1 (proj2 (listing_is_all_or_nothing brokenShelf))).
    exists ("gone", mkFolder None false None FileUnreadable).
    split; [|reflexivity]. unfold brokenShelf. apply in_or_app. right. now left.
  - apply (proj2 (proj2 (listing_is_all_or_nothing shelf))).
    intros e [<-|[<-|[<-|[<-|[<-|[]]]]]]; discriminate.
Defined.


Lemma shelf_queries_agree :
  NoDup (map fst shelf)
  /\ exists info,
       getGameSessionInfo "game_2" (lookupFolder "game_2" shelf) = inr info
       /\ info_gameName info = "game_2"
       /\ info_improvementCount info = 0.
Proof.
  assert (Hnd : NoDup (map fst shelf)).
  { repeat constructor; simpl; intuition discriminate. }
  split; [exact Hnd|].
  destruct (listing_agrees_with_session_info shelf
              (mkSummary "game_2" "game_2" true 0 true None) Hnd)
    as (info & Hi & Hn & Hc & _).
  - right. now left.
  - exists info. auto.
Defined.

Lemma listing_of_improved_game :
  exists s,
    summarize "game_1"
      (playable (FileRecord (partialOf afterSilent)) None) = Some s
    /\ sum_improvementCount s = 1
    /\ sum_hasActiveSession s = false
    /\ hasActiveSession afterSilent = true.
Proof.
  destruct (listing_after_improvement getTime toISOString quiet scaffolded
              "game_1" (playable (FileRecord (partialOf afterSilent)) None)
              eq_refl eq_refl)
    as (s & Hs & Hc & _ & Hflag).
  exists s. split; [exact Hs|]. split; [exact Hc|].
  exact (Hflag eq_refl eq_refl eq_refl).
Defined.

Lemma request_without_game_id :
  nonEmptyString JsUndefined = None
  /\ fst (improveEndpoint getTime toISOString chatty ReloadThrows JsUndefined
            (JsString "add a goal") (fun _ => Game warm))
     = mkResponse 400 (ErrorJson "Invalid game ID").
Proof.
  split; [reflexivity|].
  destruct (endpoint_rejects_bad_requests getTime toISOString chatty
              ReloadThrows JsUndefined (JsString "add a goal")
              (fun _ => Game warm) (or_introl eq_refl))
    as (Hs & _ & _ & Hp).
  destruct (fst (improveEndpoint _ _ _ _ _ _ _)) as [st pl].
  simpl in Hs, Hp. now subst.
Defined.

Lemma failed_improvement_is_answered_200 :
  nonEmptyString (JsString "game_1") = Some "game_1"
  /\ fst (improveEndpoint getTime toISOString aborted (ReloadClass "MazeRoom")
            (JsString "game_1") (JsString "add a goal") (fun _ => Game warm))
     = mkResponse 200
         (ResultJson (mkResult false "Failed to improve game: aborted")).
Proof.
  split; [reflexivity|].
  exact (proj1 (proj2 (endpoint_answers getTime toISOString aborted
                         (ReloadClass "MazeRoom") (JsString "game_1")
                         (JsString "add a goal") "game_1" "add a goal"
                         (fun _ => Game warm) eq_refl eq_refl)
                  warm eq_refl)).
Defined.

Lemma evening_membership :
  Room.joined evening "b" false = false
  /\ Room.after (evening ++ [Room.Move "b" step1]) = Room.after evening.
Proof.
  split; [reflexivity|].
  exact (proj1 (proj2 (room_membership evening "b") eq_refl step1)).
Defined.

Lemma evening_player :
  exists p,
    Room.players (Room.after evening) "a" = Some p
    /\ Room.id p = "a" /\ Room.isMoving p = true.
Proof.
  eexists. split; [reflexivity|].
  split; [|reflexivity].
  exact (proj1 (proj2 (proj2 (room_keeps_template_state evening)) "a" _ eq_refl)).
Defined.

Lemma talkative_generation_session :
  JS.truthy (genSessionId talkative) = true
  /\ genSessionId talkative = Some "s-1".
Proof.
  split; [reflexivity|].
  exact (proj1 (generation_session_id talkative) eq_refl).
Defined.

Lemma smooth_generation :
  gen_setup smooth = None
  /\ gen_rm smooth = None
  /\ exists m,
       snd (generateGame toISOString smooth "Maze" "make a maze game") = Game m
       /\ improvementCount m = 0
       /\ claudeSessionId m = Some "s-1".
Proof.
  split; [reflexivity|]. split; [reflexivity|].
  destruct (proj1 (proj2 (generation_is_all_or_nothing toISOString smooth
                            "Maze" "make a maze game" eq_refl eq_refl))
              "Maze" (gameIdAt (gen_now smooth)) eq_refl)
    as (_ & _ & H & _).
  rewrite H. eexists. split; [reflexivity|]. split; reflexivity.
Defined.

Lemma worn_reason :
  sessionToken worn = Some "abc"
  /\ shouldReset getTime worn warmNow = true
  /\ reportedReason getTime worn warmNow = Some (SessionTooLong 5).
Proof.
  split; [reflexivity|]. split; [reflexivity|].
  destruct (reason_with_token getTime worn warmNow "abc" eq_refl eq_refl)
    as (r & Hr & _).
  rewrite Hr. vm_compute in Hr. symmetry. exact Hr.
Defined.

Lemma game_896_names_itself :
  0 <= 1755120361896
  /\ describe "game_1755120361896" (playable FileUnreadable None)
     = Some (mkApiGame "game_1755120361896" "Game 1755120361896"
               "AI-generated 3D multiplayer game" "🎯"
               "/games/game_1755120361896/").
Proof.
  assert (H : 0 <= 1755120361896) by discriminate.
  split; [exact H|].
  apply (proj2 (generated_id_names_itself 1755120361896
                  (playable FileUnreadable None) H)).
  - reflexivity.
  - intros p. discriminate.
Defined.

Lemma shelf_api_games :
  apiGames (Some brokenShelf) = (500, inl "Failed to list games")
  /\ exists games,
       apiGames (Some shelf) = (200, inr games)
       /\ map api_id games = ["game_1"; "game_2"; "game_3"].
Proof.
  split.
  - apply (proj1 (proj2 (api_games_listing brokenShelf))).
    exists ("gone", mkFolder None false None FileUnreadable).
    split; [|reflexivity]. unfold brokenShelf. apply in_or_app. right. now left.
  - destruct (proj1 (proj2 (proj2 (api_games_listing shelf)))) as (games & Hg & Hids & _).
    + intros e [<-|[<-|[<-|[<-|[<-|[]]]]]]; discriminate.
    + exists games. split; [exact Hg|exact Hids].
Defined.


